(** * Hyperliquid top traders: a shallow embedding of [fetch_top_traders.py]

    The script fetches a leaderboard, ranks the traders by profit and loss
    over a window, fetches the open positions of the ranked addresses and
    writes one JSON snapshot.  This file embeds the script function by
    function and proves properties of the embedding.

    Conventions of the embedding.
    - A Python object that comes out of [response.json()] is a [pyval].
    - A Python expression that can raise is a computation in [result]; the
      exception classes are the constructors of [exn].
    - A Python [float] is a [spec_float] (IEEE 754 binary64, the
      specification of the Standard Library); [float(x)] is [py_float].
    - The network is a [world]: the reply to the leaderboard request and
      the reply to the positions request of each address.
    - Text written to standard output by [print] is not part of the model.
      Where the argument of a [print] can raise, the raise is modelled.
    - [data.json] is modelled by the value handed to [json.dump].
    - Library calls follow the libraries: [raise_for_status] of requests,
      [float], [list.sort] and slicing of CPython. *)

From Stdlib Require Import ZArith Ascii String Floats.SpecFloat Sorting.Sorted.
From stdpp Require Import base list strings gmap sorting.

Local Open Scope Z_scope.
#[local] Set Warnings "-clear-no-such-hyp".

(** ** Exceptions and the error monad *)

Inductive exn : Type :=
  | TypeError
  | ValueError
  | AttributeError
  | IndexError
  | KeyError
  | OverflowError
  | RequestException      (* requests: connection error, timeout, ... *)
  | HTTPError             (* raised by [raise_for_status] *)
  | JSONDecodeError.      (* raised by [response.json()] *)

Inductive result (A : Type) : Type :=
  | Ok (a : A)
  | Raise (e : exn).
Arguments Ok {A} a.
Arguments Raise {A} e.

#[global] Instance result_ret : MRet result := fun _ a => Ok a.
#[global] Instance result_bind : MBind result := fun _ _ f m =>
  match m with
  | Ok a => f a
  | Raise e => Raise e
  end.

Definition returns {A} (m : result A) : Prop := ∃ a, m = Ok a.
Definition raises {A} (m : result A) : Prop := ∃ e, m = Raise e.

(** ** Python values *)

(** The objects [json.loads] builds.  A dictionary is the list of its
    items in insertion order; a lookup takes the first binding of a key. *)
#[warnings="-register-all"]
Inductive pyval : Type :=
  | PNone
  | PBool (b : bool)
  | PInt (z : Z)
  | PFloat (f : spec_float)
  | PStr (s : string)
  | PList (l : list pyval)
  | PDict (d : list (string * pyval)).

Fixpoint dict_lookup (k : string) (d : list (string * pyval)) : option pyval :=
  match d with
  | [] => None
  | (k', v) :: d' => if String.eqb k' k then Some v else dict_lookup k d'
  end.

(** [v.get(k, dflt)]: only a [dict] has the method. *)
Definition py_get (v : pyval) (k : string) (dflt : pyval) : result pyval :=
  match v with
  | PDict d => Ok (default dflt (dict_lookup k d))
  | _ => Raise AttributeError
  end.

(** ** Built-ins *)

Definition binary64_prec : Z := 53.
Definition binary64_emax : Z := 1024.

Definition float_zero : spec_float := S754_zero false.
Definition float_one : spec_float := binary_normalize binary64_prec binary64_emax 1 0 false.
Definition float_is_nan (f : spec_float) : bool :=
  match f with S754_nan => true | _ => false end.

(** [bool(v)], the test of [if v:] and [not v]. *)
Definition py_truthy (v : pyval) : bool :=
  match v with
  | PNone => false
  | PBool b => b
  | PInt z => negb (z =? 0)
  | PFloat f => negb (SFeqb f float_zero)
  | PStr s => negb (String.eqb s "")
  | PList l => match l with [] => false | _ => true end
  | PDict d => match d with [] => false | _ => true end
  end.

Definition str_chars (s : string) : list pyval :=
  (λ c, PStr (String c EmptyString)) <$> list_ascii_of_string s.

(** The items [for x in v:] runs through.  A [str] yields its characters, a
    [dict] its keys. *)
Definition py_iter (v : pyval) : result (list pyval) :=
  match v with
  | PList l => Ok l
  | PStr s => Ok (str_chars s)
  | PDict d => Ok (PStr <$> remove_dups (fst <$> d))
  | _ => Raise TypeError
  end.

(** [v[i]] for a literal index [i >= 0].  The keys of a dictionary built
    from JSON are strings, so an integer key is never present. *)
Definition py_index (v : pyval) (i : nat) : result pyval :=
  match v with
  | PList l => match l !! i with Some x => Ok x | None => Raise IndexError end
  | PStr s => match str_chars s !! i with Some x => Ok x | None => Raise IndexError end
  | PDict _ => Raise KeyError
  | _ => Raise TypeError
  end.

(** [len(v)]. *)
Definition py_len (v : pyval) : result nat :=
  match v with
  | PList l => Ok (length l)
  | PStr s => Ok (String.length s)
  | PDict d => Ok (length (remove_dups (fst <$> d)))
  | _ => Raise TypeError
  end.

(** [v == s] for a [str] [s]: an object of another type is never equal. *)
Definition py_eq_str (v : pyval) (s : string) : bool :=
  match v with
  | PStr s' => String.eqb s' s
  | _ => false
  end.

(** *** [float(x)] *)

Module FloatParse.

Definition is_digit (c : ascii) : bool :=
  let n := N_of_ascii c in ((48 <=? n) && (n <=? 57))%N.

Definition digit_value (c : ascii) : Z := Z.of_N (N_of_ascii c) - 48.

(** The white space [float] strips, in the ASCII range. *)
Definition is_space (c : ascii) : bool :=
  let n := N_of_ascii c in
  (((9 <=? n) && (n <=? 13)) || ((28 <=? n) && (n <=? 32)))%N.

Definition lower (c : ascii) : ascii :=
  let n := N_of_ascii c in
  if ((65 <=? n) && (n <=? 90))%N then ascii_of_N (n + 32) else c.

Fixpoint span_digits (l : list ascii) : list ascii * list ascii :=
  match l with
  | c :: l' =>
      if is_digit c then let '(ds, r) := span_digits l' in (c :: ds, r)
      else ([], l)
  | [] => ([], [])
  end.

Definition digits_value (ds : list ascii) : Z :=
  fold_left (λ acc c, 10 * acc + digit_value c) ds 0.

Fixpoint drop_spaces (l : list ascii) : list ascii :=
  match l with
  | c :: l' => if is_space c then drop_spaces l' else l
  | [] => []
  end.

Definition strip (l : list ascii) : list ascii :=
  reverse (drop_spaces (reverse (drop_spaces l))).

(** An underscore is accepted only between two digits, and is then
    dropped.  [prev] tells whether the character before is a digit. *)
Fixpoint drop_underscores (prev : bool) (l : list ascii) : option (list ascii) :=
  match l with
  | [] => Some []
  | c :: l' =>
      if Ascii.eqb c "_" then
        match l' with
        | d :: _ => if prev && is_digit d then drop_underscores false l' else None
        | [] => None
        end
      else (c ::.) <$> drop_underscores (is_digit c) l'
  end.

Definition read_sign (l : list ascii) : bool * list ascii :=
  match l with
  | c :: l' =>
      if Ascii.eqb c "-" then (true, l')
      else if Ascii.eqb c "+" then (false, l')
      else (false, l)
  | [] => (false, [])
  end.

(** [digits [. digits] [(e|E) [sign] digits]] with a digit in the
    mantissa: the integer [m] and the exponent [e] of [m * 10^e]. *)
Definition read_decimal (l : list ascii) : option (Z * Z) :=
  let '(ip, r1) := span_digits l in
  let '(fp, r2) :=
    match r1 with
    | c :: r => if Ascii.eqb c "." then span_digits r else ([], r1)
    | [] => ([], r1)
    end in
  match ip ++ fp with
  | [] => None
  | ds =>
      let m := digits_value ds in
      let shift := Z.of_nat (length fp) in
      match r2 with
      | [] => Some (m, - shift)
      | c :: r3 =>
          if Ascii.eqb (lower c) "e" then
            let '(sg, r4) := read_sign r3 in
            match span_digits r4 with
            | (d :: ds', []) =>
                let x := digits_value (d :: ds') in
                Some (m, (if sg then - x else x) - shift)
            | _ => None
            end
          else None
      end
  end.

(** [m * 10^e] rounded to the nearest binary64, ties to even. *)
Definition round_decimal (sg : bool) (m e : Z) : spec_float :=
  match m with
  | Zpos p =>
      if 0 <=? e then
        binary_round binary64_prec binary64_emax sg (p * Z.to_pos (10 ^ e))%positive 0
      else
        let '(q, e', l) :=
          SFdiv_core_binary binary64_prec binary64_emax (Zpos p) 0 (10 ^ (- e)) 0 in
        binary_round_aux binary64_prec binary64_emax sg q e' l
  | _ => S754_zero sg
  end.

Definition read_float (s : string) : option spec_float :=
  l ← drop_underscores false (strip (list_ascii_of_string s));
  let '(sg, r) := read_sign l in
  let word := string_of_list_ascii (lower <$> r) in
  if String.eqb word "inf" || String.eqb word "infinity" then Some (S754_infinity sg)
  else if String.eqb word "nan" then Some S754_nan
  else '(m, e) ← read_decimal r; Some (round_decimal sg m e).

End FloatParse.

(** [float(v)].  A [str] is parsed (ASCII digits and white space), an [int]
    is rounded and is too large when it rounds to infinity, a [bool] is an
    [int]; any other object is a [TypeError]. *)
Definition py_float (v : pyval) : result spec_float :=
  match v with
  | PFloat f => Ok f
  | PInt z =>
      match binary_normalize binary64_prec binary64_emax z 0 false with
      | S754_infinity _ => Raise OverflowError
      | f => Ok f
      end
  | PBool b => Ok (if b then float_one else float_zero)
  | PStr s =>
      match FloatParse.read_float s with
      | Some f => Ok f
      | None => Raise ValueError
      end
  | PNone | PList _ | PDict _ => Raise TypeError
  end.


(** ** Numbers a ranking holds *)

(** A window figure is an [int] (the literal [0] of the default) or a
    [float] (the result of [float(...)]). *)
Inductive num : Type :=
  | NInt (z : Z)
  | NFloat (f : spec_float).

(** An [int] against a [float]: Python compares the exact values. *)
Definition int_float_compare (x : Z) (f : spec_float) : option comparison :=
  match f with
  | S754_nan => None
  | S754_infinity s => Some (if s then Gt else Lt)
  | S754_zero _ => Some (x ?= 0)
  | S754_finite s m e =>
      let v := if s then Zneg m else Zpos m in
      if 0 <=? e then Some (x ?= v * 2 ^ e) else Some (x * 2 ^ (- e) ?= v)
  end.

Definition num_compare (a b : num) : option comparison :=
  match a, b with
  | NInt x, NInt y => Some (x ?= y)
  | NFloat x, NFloat y => SFcompare x y
  | NInt x, NFloat y => int_float_compare x y
  | NFloat x, NInt y => CompOpp <$> int_float_compare y x
  end.

(** [a == b], [a < b], [a > b] and [a >= b]. *)
Definition num_eqb (a b : num) : bool :=
  match num_compare a b with Some Eq => true | _ => false end.
Definition num_ltb (a b : num) : bool :=
  match num_compare a b with Some Lt => true | _ => false end.
Definition num_gtb (a b : num) : bool := num_ltb b a.
Definition num_geb (a b : num) : bool :=
  match num_compare a b with Some (Gt | Eq) => true | _ => false end.

Definition num_is_nan (a : num) : bool :=
  match a with NFloat f => float_is_nan f | NInt _ => false end.

(** ** [list.sort(key=..., reverse=...)] and [l[:n]] *)

(** [list.sort] as CPython 3.11 runs it on a list of fewer than 64 items
    (Objects/listobject.c).  With [reverse=True] the list is reversed
    first and the result is reversed again.  In between, [count_run] finds
    the run the list starts with, in which no item is less than the item
    before it, or every item is less than the item before it (such a run
    is reversed); [binarysort] then inserts the remaining items one by
    one, each at the place a binary search gives.  Keys are compared with
    [<] only.

    A list of 64 items or more is cut into several such runs, which are
    merged; the merge is not modelled.  When no key is NaN, [<] orders the
    keys, the sort is stable and every stable sort returns the same list
    (see [list_sort_reverse_unique]), so the model gives the list Python
    gives whatever the length.  With a NaN among the keys the model stands
    for lists of fewer than 64 items. *)

(** The longest prefix of [l] in which no item is less than the item
    before it, starting after [prev]; and the rest of [l]. *)
Fixpoint ascending_run {A} (lt : A → A → bool) (prev : A) (l : list A) : list A * list A :=
  match l with
  | [] => ([], [])
  | x :: l' =>
      if lt x prev then ([], l)
      else let '(run, rest) := ascending_run lt x l' in (x :: run, rest)
  end.

(** The longest prefix of [l] in which every item is less than the item
    before it, starting after [prev]; and the rest of [l]. *)
Fixpoint descending_run {A} (lt : A → A → bool) (prev : A) (l : list A) : list A * list A :=
  match l with
  | [] => ([], [])
  | x :: l' =>
      if lt x prev then let '(run, rest) := descending_run lt x l' in (x :: run, rest)
      else ([], l)
  end.

(** The run at the start of [l], made ascending, and the rest of [l]. *)
Definition count_run {A} (lt : A → A → bool) (l : list A) : list A * list A :=
  match l with
  | [] => ([], [])
  | x :: l' =>
      match l' with
      | y :: _ =>
          if lt y x then
            let '(run, rest) := descending_run lt x l' in (reverse (x :: run), rest)
          else
            let '(run, rest) := ascending_run lt x l' in (x :: run, rest)
      | [] => ([x], [])
      end
  end.

(** The binary search of [binarysort] for the place of [pivot] in [a]
    between the indices [l] and [r]; [fuel] bounds the number of steps,
    [r - l] steps are enough. *)
Fixpoint bisect {A} (lt : A → A → bool) (pivot : A) (a : list A) (l r fuel : nat) : nat :=
  match fuel with
  | O => l
  | S fuel' =>
      if (l <? r)%nat then
        let p := (l + (r - l) / 2)%nat in
        match a !! p with
        | Some x =>
            if lt pivot x then bisect lt pivot a l p fuel'
            else bisect lt pivot a (S p) r fuel'
        | None => l
        end
      else l
  end.

Definition binary_insert {A} (lt : A → A → bool) (a : list A) (pivot : A) : list A :=
  let i := bisect lt pivot a 0 (length a) (length a) in
  take i a ++ pivot :: drop i a.

(** [binarysort]: [sorted] is the run already in order, [rest] the items
    to insert, from left to right. *)
Definition binarysort {A} (lt : A → A → bool) (sorted rest : list A) : list A :=
  foldl (binary_insert lt) sorted rest.

Definition listsort {A} (lt : A → A → bool) (l : list A) : list A :=
  let '(run, rest) := count_run lt l in binarysort lt run rest.

Definition list_sort {A} (key : A → num) (reverse_ : bool) (l : list A) : list A :=
  let lt := λ a b, num_ltb (key a) (key b) in
  if reverse_ then reverse (listsort lt (reverse l)) else listsort lt l.

(** [l[:n]]: a negative [n] counts from the end. *)
Definition slice_to {A} (n : Z) (l : list A) : list A :=
  if 0 <=? n then take (Z.to_nat n) l
  else take (length l - Z.to_nat (- n))%nat l.

(** ** Records of the script *)

(** The dictionary [get_pnl_data] returns. *)
Record pnl_data : Type := PnlData {
  pd_pnl : num;
  pd_roi : num;
  pd_volume : num;
}.

Inductive direction_t : Type := Long | Short.

(** An entry of the list [fetch_positions] returns. *)
Record position : Type := Position {
  coin : pyval;
  direction : direction_t;
  size : spec_float;
  entryPx : pyval;
  leverage : pyval;
  leverageType : pyval;
  positionValue : pyval;
  unrealizedPnl : pyval;
  returnOnEquity : pyval;
  liquidationPx : pyval;
}.

(** An entry of a ranked list.  The key ['positions'] is absent until
    [main] attaches the positions. *)
Record ranked : Type := Ranked {
  address : pyval;
  displayName : pyval;
  accountValue : spec_float;
  pnl : num;
  roi : num;
  volume : num;
  positions : option (list position);
}.

(** ** [get_pnl_data] *)

(** [float(perf[1].get(k, 0))] *)
Definition window_figure (perf : pyval) (k : string) : result spec_float :=
  d ← py_index perf 1;
  v ← py_get d k (PInt 0);
  py_float v.

Fixpoint get_pnl_data_loop (perfs : list pyval) (period : string) : result pnl_data :=
  match perfs with
  | [] => Ok (PnlData (NInt 0) (NInt 0) (NInt 0))
  | perf :: perfs' =>
      k ← py_index perf 0;
      if py_eq_str k period then
        p ← window_figure perf "pnl";
        r ← window_figure perf "roi";
        v ← window_figure perf "vlm";
        Ok (PnlData (NFloat p) (NFloat r) (NFloat v))
      else get_pnl_data_loop perfs' period
  end.

Definition get_pnl_data (trader : pyval) (period : string) : result pnl_data :=
  wp ← py_get trader "windowPerformances" (PList []);
  perfs ← py_iter wp;
  get_pnl_data_loop perfs period.

(** ** [process_traders] *)

Fixpoint process_traders_loop (traders : list pyval) (period : string) : result (list ranked) :=
  match traders with
  | [] => Ok []
  | trader :: traders' =>
      pnl_data ← get_pnl_data trader period;
      if num_eqb (pd_pnl pnl_data) (NInt 0) then process_traders_loop traders' period
      else
        a ← py_get trader "ethAddress" (PStr "");
        n ← py_get trader "displayName" PNone;
        av ← py_get trader "accountValue" (PInt 0);
        av ← py_float av;
        processed ← process_traders_loop traders' period;
        Ok (Ranked a n av (pd_pnl pnl_data) (pd_roi pnl_data) (pd_volume pnl_data) None
              :: processed)
  end.

Definition process_traders (traders : pyval) (period : string) (top_n : Z) : result (list ranked) :=
  ts ← py_iter traders;
  processed ← process_traders_loop ts period;
  Ok (slice_to top_n (list_sort pnl true processed)).

(** ** The network and the two fetchers *)

(** What a request comes back with: no response at all ([requests] raises),
    or a status code and a body, [None] when the body is not JSON. *)
Inductive http_reply : Type :=
  | NoReply
  | Reply (status : Z) (body : option pyval).

(** One run of the script: the reply to the leaderboard request, the reply
    to the positions request of each address (an address is requested at
    most once in a run) and the clock. *)
Record world : Type := World {
  leaderboard_reply : http_reply;
  info_reply : string → http_reply;
  utcnow_isoformat : string;
}.

(** [response.raise_for_status()] of [requests]: a 4xx or 5xx status. *)
Definition raise_for_status (status : Z) : result unit :=
  if (400 <=? status) && (status <? 600) then Raise HTTPError else Ok ().

(** [requests.get(...)] or [requests.post(...)], [raise_for_status()] and
    [response.json()] in a row. *)
Definition response_json (r : http_reply) : result pyval :=
  match r with
  | NoReply => Raise RequestException
  | Reply status body =>
      _ ← raise_for_status status;
      match body with
      | Some data => Ok data
      | None => Raise JSONDecodeError
      end
  end.

(** [try: body except Exception: return dflt] *)
Definition try_except {A} (body : result A) (dflt : A) : A :=
  match body with
  | Ok a => a
  | Raise _ => dflt
  end.

Definition fetch_leaderboard (w : world) : pyval :=
  try_except
    (data ← response_json (leaderboard_reply w);
     traders ← py_get data "leaderboardRows" (PList []);
     _ ← py_len traders;
     Ok traders)
    (PList []).

(** [szi != 0] and [szi > 0] for the float [szi] and the literal [0]. *)
Definition szi_nonzero (szi : spec_float) : bool := negb (num_eqb (NFloat szi) (NInt 0)).
Definition szi_positive (szi : spec_float) : bool := num_gtb (NFloat szi) (NInt 0).

(** The dictionary appended for a position [pos] of signed size [szi]. *)
Definition make_position (pos : pyval) (szi : spec_float) : result position :=
  leverage_data ← py_get pos "leverage" (PDict []);
  coin_ ← py_get pos "coin" (PStr "");
  entryPx_ ← py_get pos "entryPx" (PStr "0");
  leverage_ ← py_get leverage_data "value" (PInt 0);
  leverageType_ ← py_get leverage_data "type" (PStr "cross");
  positionValue_ ← py_get pos "positionValue" (PStr "0");
  unrealizedPnl_ ← py_get pos "unrealizedPnl" (PStr "0");
  returnOnEquity_ ← py_get pos "returnOnEquity" (PStr "0");
  liquidationPx_ ← py_get pos "liquidationPx" (PStr "");
  Ok {| coin := coin_;
        direction := if szi_positive szi then Long else Short;
        size := SFabs szi;
        entryPx := entryPx_;
        leverage := leverage_;
        leverageType := leverageType_;
        positionValue := positionValue_;
        unrealizedPnl := unrealizedPnl_;
        returnOnEquity := returnOnEquity_;
        liquidationPx := liquidationPx_ |}.

Fixpoint positions_loop (asset_positions : list pyval) : result (list position) :=
  match asset_positions with
  | [] => Ok []
  | asset_pos :: rest =>
      pos ← py_get asset_pos "position" (PDict []);
      if py_truthy pos then
        szi ← py_get pos "szi" (PInt 0);
        szi ← py_float szi;
        if szi_nonzero szi then
          p ← make_position pos szi;
          ps ← positions_loop rest;
          Ok (p :: ps)
        else positions_loop rest
      else positions_loop rest
  end.

(** The part of [fetch_positions] that reads the decoded response. *)
Definition extract_positions (data : pyval) : result (list position) :=
  aps ← py_get data "assetPositions" (PList []);
  aps ← py_iter aps;
  positions_loop aps.

(** [main] calls [fetch_positions] on strings only, see [address_str]. *)
Definition fetch_positions (w : world) (address_ : string) : list position :=
  try_except
    (data ← response_json (info_reply w address_);
     extract_positions data)
    [].

(** ** [main] *)

(** What [json.dump] writes to [data.json]. *)
Record snapshot : Type := Snapshot {
  daily : list ranked;
  weekly : list ranked;
  lastUpdated : string;
}.

(** The addresses [main] can work with are strings.  A list or a
    dictionary is unhashable and [all_addresses.add] raises [TypeError];
    [None], a [bool] or a number is added to the set and [address[:10]]
    raises [TypeError] in the loop that fetches the positions. *)
Definition address_str (t : ranked) : result string :=
  match address t with
  | PStr s => Ok s
  | _ => Raise TypeError
  end.

Fixpoint collect_addresses (ts : list ranked) : result (gset string) :=
  match ts with
  | [] => Ok ∅
  | t :: ts' =>
      a ← address_str t;
      all_addresses ← collect_addresses ts';
      Ok ({[ a ]} ∪ all_addresses)
  end.

(** The loop that fills [positions_map], over the set in the order
    [elements] lists it. *)
Definition fetch_all (w : world) (all_addresses : gset string) : gmap string (list position) :=
  foldl (λ positions_map a, <[ a := fetch_positions w a ]> positions_map)
        ∅ (elements all_addresses).

(** [trader['positions'] = positions_map.get(trader['address'], [])] *)
Definition attach (positions_map : gmap string (list position)) (t : ranked) : ranked :=
  let ps :=
    match address t with
    | PStr a => default [] (positions_map !! a)
    | _ => []
    end in
  {| address := address t; displayName := displayName t;
     accountValue := accountValue t; pnl := pnl t; roi := roi t;
     volume := volume t; positions := Some ps |}.

(** [main] up to the point where it either returns early ([None]) or has
    built the dictionary it is about to dump ([Some]). *)
Definition main_output (w : world) : result (option snapshot) :=
  let traders := fetch_leaderboard w in
  if negb (py_truthy traders) then Ok None
  else
    daily_top ← process_traders traders "day" 10;
    weekly_top ← process_traders traders "week" 10;
    all_addresses ← collect_addresses (daily_top ++ weekly_top);
    let positions_map := fetch_all w all_addresses in
    let daily_top := attach positions_map <$> daily_top in
    let weekly_top := attach positions_map <$> weekly_top in
    Ok (Some {| daily := daily_top; weekly := weekly_top;
                lastUpdated := utcnow_isoformat w +:+ "Z" |}).

(** A run of [main] from a disk where [data.json] holds [disk] ([None]: no
    such file): how the run ends, and what the file holds afterwards.  The
    file is opened for writing only after everything else has succeeded. *)
Definition main (w : world) (disk : option snapshot) : result unit * option snapshot :=
  match main_output w with
  | Ok None => (Ok (), disk)
  | Ok (Some output) => (Ok (), Some output)
  | Raise e => (Raise e, disk)
  end.

(** * Vocabulary of the properties *)

(** [x] may stand before [y] in a list sorted by [lt]: both are in the
    domain [D] and [y] is not less than [x]. *)
Definition not_after_in {A} (D : A → Prop) (lt : A → A → bool) (x y : A) : Prop :=
  D x ∧ D y ∧ lt y x = false.

(** [y] is less than [x], both in the domain [D]. *)
Definition strictly_after_in {A} (D : A → Prop) (lt : A → A → bool) (x y : A) : Prop :=
  D x ∧ D y ∧ lt y x = true.

(** The entry the loop of [process_traders] appends for one trader;
    [None] when the loop skips the trader. *)
Definition ranked_entry (trader : pyval) (period : string) : result (option ranked) :=
  pnl_data ← get_pnl_data trader period;
  if num_eqb (pd_pnl pnl_data) (NInt 0) then Ok None
  else
    a ← py_get trader "ethAddress" (PStr "");
    n ← py_get trader "displayName" PNone;
    av ← py_get trader "accountValue" (PInt 0);
    av ← py_float av;
    Ok (Some (Ranked a n av (pd_pnl pnl_data) (pd_roi pnl_data) (pd_volume pnl_data) None)).

(** [pnl[i] >= pnl[i+1]] for all adjacent pairs. *)
Definition descending_by_pnl (l : list ranked) : Prop :=
  ∀ i a b, l !! i = Some a → l !! S i = Some b → num_geb (pnl a) (pnl b) = true.

(** The pnl [get_pnl_data] extracts for the trader is not NaN. *)
Definition pnl_not_nan (period : string) (trader : pyval) : Prop :=
  ∀ d, get_pnl_data trader period = Ok d → num_is_nan (pd_pnl d) = false.

(** The pnl of an entry is a float other than NaN. *)
Definition float_pnl (r : ranked) : Prop :=
  ∃ f, pnl r = NFloat f ∧ float_is_nan f = false.

(** [a] ranks at least as high as [b]. *)
Definition pnl_ge (a b : ranked) : Prop :=
  ∃ f g, pnl a = NFloat f ∧ pnl b = NFloat g ∧ SFleb g f = true.

(** The entry's pnl equals the float [f]. *)
Definition same_pnl (f : spec_float) (r : ranked) : Prop :=
  num_eqb (pnl r) (NFloat f) = true.

#[global] Instance same_pnl_dec f r : Decision (same_pnl f r).
Proof. unfold same_pnl. apply _. Defined.

(** ** Sample data *)

Definition window (key pnl_ roi_ vlm_ : string) : pyval :=
  PList [PStr key; PDict [("pnl", PStr pnl_); ("roi", PStr roi_); ("vlm", PStr vlm_)]].

Definition sample_trader (a day_pnl week_pnl : string) : pyval :=
  PDict [("ethAddress", PStr a); ("accountValue", PStr "1000.5");
         ("displayName", PNone);
         ("windowPerformances",
          PList [window "day" day_pnl "0.1" "10"; window "week" week_pnl "0.2" "20"])].

Definition two_traders : list pyval :=
  [sample_trader "0xA" "500" "0"; sample_trader "0xB" "-100" "300"].

Definition nan_traders : list pyval :=
  [sample_trader "0xA" "NaN" "0"; sample_trader "0xB" "1" "300"].

(** ** The window-performance sequence of a trader record *)

(** An entry [[key, {...}]] of [windowPerformances]: the key and the
    object of figures. *)
Definition window_entry (perf : pyval) : option (pyval * list (string * pyval)) :=
  match perf with
  | PList (k :: PDict figures :: _) => Some (k, figures)
  | _ => None
  end.

(** The sequence of a trader record: empty when the field is absent. *)
Definition window_performances (trader : pyval) : option (list (pyval * list (string * pyval))) :=
  match trader with
  | PDict fields =>
      match dict_lookup "windowPerformances" fields with
      | None => Some []
      | Some (PList perfs) => mapM window_entry perfs
      | Some _ => None
      end
  | _ => None
  end.

(** The first entry of the sequence whose key matches. *)
Definition first_match (period : string) (seq : list (pyval * list (string * pyval))) :
    option (list (string * pyval)) :=
  snd <$> List.find (λ e, py_eq_str (fst e) period) seq.

(** A figure of an entry, [0] when the entry does not have it. *)
Definition figure (figures : list (string * pyval)) (k : string) : pyval :=
  default (PInt 0) (dict_lookup k figures).

(** [{pnl, roi, volume}] of an entry, each coerced to a float. *)
Definition coerced_figures (figures : list (string * pyval)) : result pnl_data :=
  p ← py_float (figure figures "pnl");
  r ← py_float (figure figures "roi");
  v ← py_float (figure figures "vlm");
  Ok (PnlData (NFloat p) (NFloat r) (NFloat v)).

Definition zero_figures : pnl_data := PnlData (NInt 0) (NInt 0) (NInt 0).

(** What the specification says [get_pnl_data] computes from a sequence. *)
Definition spec_pnl_data (period : string) (seq : list (pyval * list (string * pyval))) :
    result pnl_data :=
  match first_match period seq with
  | Some figures => coerced_figures figures
  | None => Ok zero_figures
  end.

(** [float(v)] does not raise. *)
Definition coercible (v : pyval) : Prop := returns (py_float v).

Definition figure_keys : list string := ["pnl"; "roi"; "vlm"].

(** A record whose day pnl is not a number. *)
Definition text_pnl_trader : pyval := sample_trader "0xA" "abc" "0".

Definition sample_sequence : list (pyval * list (string * pyval)) :=
  [(PStr "day", [("pnl", PStr "500"); ("roi", PStr "0.1"); ("vlm", PStr "10")]);
   (PStr "week", [("pnl", PStr "0"); ("roi", PStr "0.2"); ("vlm", PStr "20")])].

(** A record without [windowPerformances]. *)
Definition bare_trader : pyval := PDict [("ethAddress", PStr "0xA")].

(** ** Asset positions of a response *)

(** The asset positions the loop of [fetch_positions] runs through. *)
Definition asset_positions (data : pyval) : result (list pyval) :=
  aps ← py_get data "assetPositions" (PList []);
  py_iter aps.

(** The signed size [szi] of an asset position; [None] when its position
    object is empty. *)
Definition signed_size (asset_pos : pyval) : result (option spec_float) :=
  pos ← py_get asset_pos "position" (PDict []);
  if py_truthy pos then
    szi ← py_get pos "szi" (PInt 0);
    szi ← py_float szi;
    Ok (Some szi)
  else Ok None.

(** What a returned position owes to the signed size it was built from. *)
Definition position_of_size (szi : spec_float) (p : position) : Prop :=
  size p = SFabs szi ∧
  direction p = (if szi_positive szi then Long else Short) ∧
  num_ltb (NFloat (size p)) (NInt 0) = false ∧
  (float_is_nan szi = false → num_geb (NFloat (size p)) (NInt 0) = true).

Definition asset (coin_ szi : string) : pyval :=
  PDict [("position", PDict [("coin", PStr coin_); ("szi", PStr szi);
                             ("leverage", PDict [("type", PStr "isolated"); ("value", PInt 5)])])].

Definition sample_positions : pyval :=
  PDict [("assetPositions", PList [asset "BTC" "-2.5"; asset "ETH" "0.0"; asset "SOL" "40"])].

(** A world where the positions of ["0xA"] are [sample_positions] and the
    request for any other address gets a server error. *)
Definition sample_world : world :=
  {| leaderboard_reply := Reply 200 (Some (PDict [("leaderboardRows", PList two_traders)]));
     info_reply := λ a, if String.eqb a "0xA" then Reply 200 (Some sample_positions)
                        else Reply 500 None;
     utcnow_isoformat := "2024-01-01T00:00:00" |}.

(** ** Runs of [main] *)

(** The ways the leaderboard fetch fails: the request raises, the status
    is one [raise_for_status] rejects, or the body does not decode. *)
Inductive fetch_failure : http_reply → Prop :=
  | request_raises : fetch_failure NoReply
  | error_status status body : 400 ≤ status < 600 → fetch_failure (Reply status body)
  | decode_error status : fetch_failure (Reply status None).

Definition status_2xx (status : Z) : Prop := 200 ≤ status < 300.

(** The body has no [leaderboardRows]. *)
Definition lacks_rows (body : pyval) : Prop :=
  match body with
  | PDict fields => dict_lookup "leaderboardRows" fields = None
  | _ => True
  end.

Definition empty_rows (body : pyval) : Prop :=
  ∃ fields, body = PDict fields ∧ dict_lookup "leaderboardRows" fields = Some (PList []).

(** The world [w] with the reply to the positions request of [a] replaced. *)
Definition with_info_reply (w : world) (a : string) (r : http_reply) : world :=
  {| leaderboard_reply := leaderboard_reply w;
     info_reply := λ a', if String.eqb a' a then r else info_reply w a';
     utcnow_isoformat := utcnow_isoformat w |}.


(** The entry with the positions [f] gives for its address. *)
Definition attach_with (f : string → list position) (t : ranked) : ranked :=
  let ps := match address t with PStr a => f a | _ => [] end in
  {| address := address t; displayName := displayName t;
     accountValue := accountValue t; pnl := pnl t; roi := roi t;
     volume := volume t; positions := Some ps |}.


(** A non-2xx reply that [raise_for_status] lets through. *)
Definition status_300_world : world :=
  {| leaderboard_reply := Reply 300 (Some (PDict [("leaderboardRows", PList two_traders)]));
     info_reply := λ _, NoReply;
     utcnow_isoformat := "2024-01-01T00:00:00" |}.

Definition offline_world : world :=
  {| leaderboard_reply := NoReply;
     info_reply := λ _, NoReply;
     utcnow_isoformat := "2024-01-01T00:00:00" |}.

Definition empty_board_world : world :=
  {| leaderboard_reply := Reply 200 (Some (PDict [("leaderboardRows", PList [])]));
     info_reply := λ _, NoReply;
     utcnow_isoformat := "2024-01-01T00:00:00" |}.

Definition old_snapshot : snapshot :=
  {| daily := []; weekly := []; lastUpdated := "2023-12-31T00:00:00Z" |}.

(** Three traders with the same day pnl between two others. *)
Definition tied_traders : list pyval :=
  [sample_trader "0xA" "5" "0"; sample_trader "0xB" "7.0" "0";
   sample_trader "0xC" "9" "0"; sample_trader "0xD" "7" "0";
   sample_trader "0xE" "0.7e1" "0"].

(** Two traders with the same day pnl, a NaN and other values around. *)
Definition nan_tied_traders : list pyval :=
  [sample_trader "0xA" "1" "0"; sample_trader "0xB" "0.5" "0";
   sample_trader "0xC" "1" "0"; sample_trader "0xD" "NaN" "0";
   sample_trader "0xE" "9" "0"; sample_trader "0xF" "0.1" "0";
   sample_trader "0xG" "0.1" "0"].

(** Ten traders with the day pnl 10 down to 1. *)
Definition ten_traders : list pyval :=
  [sample_trader "0x10" "10" "0"; sample_trader "0x9" "9" "0";
   sample_trader "0x8" "8" "0"; sample_trader "0x7" "7" "0";
   sample_trader "0x6" "6" "0"; sample_trader "0x5" "5" "0";
   sample_trader "0x4" "4" "0"; sample_trader "0x3" "3" "0";
   sample_trader "0x2" "2" "0"; sample_trader "0x1" "1" "0"].


(** * Further vocabulary *)

(** [len(v)] does not raise: [v] is a list, a [str] or a [dict]. *)
Definition has_len (v : pyval) : bool :=
  match v with
  | PList _ | PStr _ | PDict _ => true
  | _ => false
  end.

(** The position the loop of [fetch_positions] appends for one asset
    position; [None] when the loop skips it. *)
Definition position_entry (asset_pos : pyval) : result (option position) :=
  pos ← py_get asset_pos "position" (PDict []);
  if py_truthy pos then
    szi ← py_get pos "szi" (PInt 0);
    szi ← py_float szi;
    if szi_nonzero szi then p ← make_position pos szi; Ok (Some p)
    else Ok None
  else Ok None.

(** The entry has a string as address and carries the positions fetched
    for it in the world [w]. *)
Definition enriched (w : world) (t : ranked) : Prop :=
  ∃ a, address t = PStr a ∧ positions t = Some (fetch_positions w a).

(** A record without a window and with an account value that is no
    number. *)
Definition idle_trader : pyval :=
  PDict [("ethAddress", PStr "0xI"); ("accountValue", PStr "n/a")].

(** A record with a day pnl and an account value that is no number. *)
Definition broken_trader : pyval :=
  PDict [("ethAddress", PStr "0xX"); ("accountValue", PStr "n/a");
         ("windowPerformances", PList [window "day" "5" "0.1" "10"])].


Definition world_of_rows (rows : pyval) : world :=
  {| leaderboard_reply := Reply 200 (Some (PDict [("leaderboardRows", rows)]));
     info_reply := λ _, NoReply;
     utcnow_isoformat := "2024-01-01T00:00:00" |}.

(** The rows are a non-empty [str] or a non-empty [dict]. *)
Definition text_or_object (rows : pyval) : Prop :=
  match rows with
  | PStr s => s ≠ ""
  | PDict d => d ≠ []
  | _ => False
  end.

(** A response with a valid position and one whose size is no number. *)
Definition half_broken_positions : pyval :=
  PDict [("assetPositions", PList [asset "BTC" "-2.5"; asset "ETH" "n/a"])].

Definition half_broken_world : world :=
  {| leaderboard_reply := NoReply;
     info_reply := λ _, Reply 200 (Some half_broken_positions);
     utcnow_isoformat := "2024-01-01T00:00:00" |}.

(** An asset position of the size [szi] whose leverage is a number. *)
Definition flat_leverage_asset (szi : string) : pyval :=
  PDict [("position", PDict [("coin", PStr "BTC"); ("szi", PStr szi); ("leverage", PInt 5)])].

(** A window entry that holds nothing but a key. *)
Definition key_only (key : string) : pyval := PList [PStr key].

(** The entry has a first element and it is not the key [period]. *)
Definition other_key (period : string) (perf : pyval) : Prop :=
  ∃ k, py_index perf 0 = Ok k ∧ py_eq_str k period = false.

(** A record whose window performances are [perfs]. *)
Definition fields_with (perfs : list pyval) : list (string * pyval) :=
  [("ethAddress", PStr "0xA"); ("windowPerformances", PList perfs)].

Definition trader_with (perfs : list pyval) : pyval := PDict (fields_with perfs).
(** * Properties *)

(** ** Comparisons of floats *)

Section FloatOrder.

Implicit Types a b c : spec_float.

Lemma SFcompare_is_Some a b :
  float_is_nan a = false → float_is_nan b = false → is_Some (SFcompare a b).
Proof. destruct a as [| | |[]], b as [| | |[]]; simpl; intros; eauto; done. Qed.

Lemma SFcompare_antisym a b (r : comparison) :
  SFcompare a b = Some r → SFcompare b a = Some (CompOpp r).
Proof.
  destruct a as [[]|[]| |[] ma ea], b as [[]|[]| |[] mb eb]; simpl;
    intros [= <-]; try done;
    rewrite (Z.compare_antisym ea eb), !Pos.compare_cont_spec,
      (Pos.compare_antisym ma mb);
    by destruct (ea ?= eb), (ma ?= mb)%positive.
Qed.

Lemma SFltb_asym a b : SFltb a b = true → SFltb b a = false.
Proof.
  unfold SFltb. destruct (SFcompare a b) as [[]|] eqn:E; try done.
  by rewrite (SFcompare_antisym _ _ _ E).
Qed.

Lemma SFleb_trans a b c : SFleb a b = true → SFleb b c = true → SFleb a c = true.
Proof.
  unfold SFleb.
  destruct a as [[]|[]| |[] ma ea], b as [[]|[]| |[] mb eb],
    c as [[]|[]| |[] mc ec]; simpl; try done;
    rewrite !Pos.compare_cont_spec;
    destruct (Z.compare_spec ea eb), (Z.compare_spec eb ec),
      (Z.compare_spec ea ec); simpl; try done; try lia;
    destruct (Pos.compare_spec ma mb), (Pos.compare_spec mb mc),
      (Pos.compare_spec ma mc); simpl; try done; try lia.
Qed.

Lemma SFcompare_Eq_trans a b c :
  SFcompare a b = Some Eq → SFcompare b c = Some Eq → SFcompare a c = Some Eq.
Proof.
  destruct a as [[]|[]| |[] ma ea], b as [[]|[]| |[] mb eb],
    c as [[]|[]| |[] mc ec]; simpl; try done;
    rewrite !Pos.compare_cont_spec;
    destruct (Z.compare_spec ea eb), (Z.compare_spec eb ec),
      (Z.compare_spec ea ec); simpl; try done; try lia;
    destruct (Pos.compare_spec ma mb), (Pos.compare_spec mb mc),
      (Pos.compare_spec ma mc); simpl; try done; try lia.
Qed.

End FloatOrder.

(** ** Comparisons of numbers *)

Section NumOrder.

Implicit Types f g : spec_float.

Lemma num_geb_float f g : num_geb (NFloat f) (NFloat g) = SFleb g f.
Proof.
  unfold num_geb, SFleb; simpl.
  destruct (SFcompare f g) as [r|] eqn:E.
  - rewrite (SFcompare_antisym _ _ _ E). by destruct r.
  - destruct (SFcompare g f) as [r|] eqn:E'; [|done].
    by rewrite (SFcompare_antisym _ _ _ E') in E.
Qed.

Lemma num_ltb_asym (a b : num) : num_ltb a b = true → num_ltb b a = false.
Proof.
  unfold num_ltb.
  destruct a as [x|f], b as [y|g]; simpl.
  - rewrite (Z.compare_antisym x y). by destruct (x ?= y).
  - destruct (int_float_compare x g) as [[]|]; naive_solver.
  - destruct (int_float_compare y f) as [[]|]; naive_solver.
  - apply SFltb_asym.
Qed.

(** Without NaN, "not less" is "greater or equal". *)
Lemma not_ltb_geb f g :
  float_is_nan f = false → float_is_nan g = false →
  num_ltb (NFloat f) (NFloat g) = false → num_geb (NFloat f) (NFloat g) = true.
Proof.
  intros Hf Hg. unfold num_ltb, num_geb; simpl.
  destruct (SFcompare_is_Some f g Hf Hg) as [r ->]. by destruct r.
Qed.

Lemma num_gtb_not_geb f g :
  num_gtb (NFloat f) (NFloat g) = true → num_geb (NFloat g) (NFloat f) = false.
Proof.
  unfold num_gtb, num_geb, num_ltb; simpl.
  destruct (SFcompare g f) as [[]|]; done.
Qed.

End NumOrder.

(** ** The error monad *)

Lemma bind_Ok {A B} (m : result A) (f : A → result B) b :
  m ≫= f = Ok b ↔ ∃ a, m = Ok a ∧ f a = Ok b.
Proof.
  destruct m as [a|e]; simpl; split.
  - intros H. exists a. done.
  - intros (a' & Ha & H). by simplify_eq.
  - done.
  - intros (a' & Ha & H). discriminate Ha.
Qed.

(** Splits [x ← m; k = Ok b] in a hypothesis into its steps. *)
Ltac inv_bind H :=
  repeat match type of H with
  | _ ≫= _ = Ok _ =>
      let a := fresh "a" in
      let Ha := fresh "Ha" in
      apply bind_Ok in H as (a & Ha & H)
  | Ok _ = Ok _ => injection H as H
  | Raise _ = Ok _ => discriminate H
  | (if ?c then _ else _) = Ok _ =>
      let E := fresh "E" in destruct c eqn:E
  end.

(** ** Lists *)


Lemma Sorted_Forall_impl {A} (R R' : relation A) (P : A → Prop) l :
  (∀ a b, P a → P b → R a b → R' a b) →
  Forall P l → Sorted R l → Sorted R' l.
Proof.
  intros HR HP Hs. induction Hs as [|x l Hs IH Hhd]; [constructor|].
  apply Forall_cons in HP as [Hx Hl].
  constructor; [by apply IH|].
  destruct Hhd; constructor. apply Forall_cons in Hl as [??]. by apply HR.
Qed.

Lemma slice_to_take {A} (n : nat) (l : list A) : slice_to (Z.of_nat n) l = take n l.
Proof.
  unfold slice_to. destruct (Z.leb_spec 0 (Z.of_nat n)); [|lia].
  by rewrite Nat2Z.id.
Qed.

Lemma StronglySorted_lookup_lt {A} (R : relation A) l i j a b :
  StronglySorted R l → l !! i = Some a → l !! j = Some b → (i < j)%nat → R a b.
Proof.
  intros Hs. revert i j. induction Hs as [|x l Hs IH Hall]; intros i j; [done|].
  destruct i as [|i], j as [|j]; simpl; try lia.
  - intros [= ->] Hb _. rewrite Forall_forall in Hall.
    eauto using list_elem_of_lookup_2.
  - intros Ha Hb Hij. apply (IH i j); auto with lia.
Qed.

Lemma filter_none {A} (P : A → Prop) `{!∀ x, Decision (P x)} (l : list A) :
  Forall (λ x, ¬ P x) l → filter P l = [].
Proof.
  induction 1 as [|x l Hx _ IH]; [done|]. by rewrite filter_cons_False.
Qed.

Lemma filter_reverse_at_most_one {A} (P : A → Prop) `{!∀ x, Decision (P x)}
    (R : relation A) (l : list A) :
  StronglySorted R l → (∀ x y, P x → P y → ¬ R x y) →
  filter P (reverse l) = filter P l.
Proof.
  intros Hsorted Hties. rewrite filter_reverse.
  assert (filter P l = [] ∨ ∃ z, filter P l = [z]) as [->|[z ->]]; [|done..].
  induction Hsorted as [|x l _ IH Hall]; [by left|].
  rewrite filter_cons. destruct (decide (P x)) as [Hx|]; [|done].
  right. exists x. f_equal. apply filter_none.
  eapply Forall_impl; [exact Hall|]. intros y Hxy Hy. exact (Hties x y Hx Hy Hxy).
Qed.
(** ** The sort *)

Section Sorting.

Context {A : Type} (lt : A → A → bool).

(** *** The result is a rearrangement of the list *)

Lemma ascending_run_app prev l run rest :
  ascending_run lt prev l = (run, rest) → l = run ++ rest.
Proof.
  revert prev run rest. induction l as [|x l IH]; intros prev run rest; simpl.
  { by intros [= <- <-]. }
  destruct (lt x prev); [by intros [= <- <-]|].
  destruct (ascending_run lt x l) as [run' rest'] eqn:E.
  intros [= <- <-]. simpl. f_equal. by eapply IH.
Qed.

Lemma descending_run_app prev l run rest :
  descending_run lt prev l = (run, rest) → l = run ++ rest.
Proof.
  revert prev run rest. induction l as [|x l IH]; intros prev run rest; simpl.
  { by intros [= <- <-]. }
  destruct (lt x prev); [|by intros [= <- <-]].
  destruct (descending_run lt x l) as [run' rest'] eqn:E.
  intros [= <- <-]. simpl. f_equal. by eapply IH.
Qed.

Lemma count_run_Permutation l run rest :
  count_run lt l = (run, rest) → run ++ rest ≡ₚ l.
Proof.
  destruct l as [|x [|y l]]; simpl; try by intros [= <- <-].
  destruct (lt y x).
  - destruct (descending_run lt y l) as [run' rest'] eqn:E.
    intros [= <- <-]. rewrite reverse_Permutation.
    by apply descending_run_app in E as ->.
  - destruct (ascending_run lt y l) as [run' rest'] eqn:E.
    intros [= <- <-]. by apply ascending_run_app in E as ->.
Qed.

Lemma binary_insert_Permutation a pivot : binary_insert lt a pivot ≡ₚ pivot :: a.
Proof.
  unfold binary_insert. rewrite <-Permutation_middle. by rewrite take_drop.
Qed.

Lemma binarysort_Permutation sorted rest : binarysort lt sorted rest ≡ₚ sorted ++ rest.
Proof.
  unfold binarysort. revert sorted.
  induction rest as [|x rest IH]; intros sorted; simpl.
  { by rewrite app_nil_r. }
  rewrite IH, binary_insert_Permutation. by rewrite <-Permutation_middle.
Qed.

Lemma listsort_Permutation l : listsort lt l ≡ₚ l.
Proof.
  unfold listsort. destruct (count_run lt l) as [run rest] eqn:E.
  rewrite binarysort_Permutation. by apply count_run_Permutation.
Qed.

(** *** On a domain that [lt] orders the result is sorted *)

Context (D : A → Prop).
Hypothesis lt_asym : ∀ x y, lt x y = true → lt y x = false.
Hypothesis lt_neg_trans : ∀ x y z,
  D x → D y → D z → lt y x = false → lt z y = false → lt z x = false.

#[local] Instance not_after_in_trans : Transitive (not_after_in D lt).
Proof. intros x y z (? & ? & ?) (? & ? & ?). repeat split; eauto. Qed.

Lemma lt_le_trans x y z :
  D x → D y → D z → lt x y = true → lt z y = false → lt x z = true.
Proof.
  intros Hx Hy Hz Hxy Hzy. destruct (lt x z) eqn:Hxz; [done|].
  by rewrite (lt_neg_trans y z x) in Hxy.
Qed.

Lemma midpoint_bounds (l r : nat) : (l < r → l ≤ l + (r - l) / 2 < r)%nat.
Proof.
  intros Hlr. pose proof (Nat.div_lt (r - l) 2 ltac:(lia) ltac:(lia)). lia.
Qed.

(** The binary search keeps the items not greater than the pivot on its
    left and the items greater than the pivot on its right. *)
Lemma bisect_inv pivot a fuel l r :
  D pivot → Forall D a → StronglySorted (not_after_in D lt) a →
  (l ≤ r ≤ length a)%nat → (r - l ≤ fuel)%nat →
  (∀ j x, (j < l)%nat → a !! j = Some x → lt pivot x = false) →
  (∀ j x, (r ≤ j)%nat → a !! j = Some x → lt pivot x = true) →
  (bisect lt pivot a l r fuel ≤ length a)%nat ∧
  (∀ j x, (j < bisect lt pivot a l r fuel)%nat → a !! j = Some x → lt pivot x = false) ∧
  (∀ j x, (bisect lt pivot a l r fuel ≤ j)%nat → a !! j = Some x → lt pivot x = true).
Proof.
  intros Hp Ha Hsorted. rewrite Forall_lookup in Ha.
  revert l r. induction fuel as [|fuel IH]; intros l r Hlr Hfuel Hleft Hright;
    cbn [bisect].
  { assert (l = r) as -> by lia. split; [lia|]. eauto. }
  destruct (Nat.ltb_spec l r) as [Hlt|Hge].
  2:{ assert (l = r) as -> by lia. split; [lia|]. eauto. }
  pose proof (midpoint_bounds l r Hlt) as Hmid.
  set (p := (l + (r - l) / 2)%nat) in *.
  destruct (lookup_lt_is_Some_2 a p) as [x Hx]; [lia|]. rewrite Hx.
  destruct (lt pivot x) eqn:Hpx.
  - apply IH; [lia|lia|done|].
    intros j y Hj Hy. destruct (decide (j = p)) as [->|Hne]; [congruence|].
    destruct (StronglySorted_lookup_lt _ _ p j x y Hsorted Hx Hy ltac:(lia))
      as (_ & _ & Hyx).
    eapply (lt_le_trans pivot x y); eauto.
  - apply IH; [lia|lia| |done].
    intros j y Hj Hy. destruct (decide (j = p)) as [->|Hne]; [congruence|].
    destruct (StronglySorted_lookup_lt _ _ j p y x Hsorted Hy Hx ltac:(lia))
      as (_ & _ & Hxy).
    eapply (lt_neg_trans y x pivot); eauto.
Qed.

Lemma bisect_split pivot a :
  D pivot → Forall D a → StronglySorted (not_after_in D lt) a →
  Forall (λ x, lt pivot x = false) (take (bisect lt pivot a 0 (length a) (length a)) a) ∧
  Forall (λ x, lt pivot x = true) (drop (bisect lt pivot a 0 (length a) (length a)) a).
Proof.
  intros Hp Ha Hsorted.
  destruct (bisect_inv pivot a (length a) 0 (length a) Hp Ha Hsorted)
    as (_ & Hleft & Hright); [lia|lia|intros; lia| |].
  { intros j x Hj Hx. apply lookup_lt_Some in Hx. lia. }
  split; apply Forall_lookup.
  - intros j x [Hx Hj]%lookup_take_Some. eauto.
  - intros j x Hx. rewrite lookup_drop in Hx. eapply Hright; [|done]. lia.
Qed.

Lemma binary_insert_sorted a pivot :
  D pivot → Forall D a → StronglySorted (not_after_in D lt) a →
  StronglySorted (not_after_in D lt) (binary_insert lt a pivot).
Proof.
  intros Hp Ha Hsorted.
  destruct (bisect_split pivot a Hp Ha Hsorted) as [Hleft Hright].
  unfold binary_insert. set (i := bisect lt pivot a 0 (length a) (length a)) in *.
  rewrite <-(take_drop i a) in Hsorted, Ha.
  apply StronglySorted_app in Hsorted as (Hcross & Htake & Hdrop).
  apply Forall_app in Ha as [Hatake Hadrop].
  rewrite Forall_forall in Hleft, Hright, Hatake, Hadrop.
  apply StronglySorted_app. split; [|split; [done|]].
  - intros x1 x2 Hx1 [->|Hx2]%elem_of_cons; [|by apply Hcross].
    repeat split; auto.
  - constructor; [done|]. apply Forall_forall. intros y Hy.
    repeat split; auto.
Qed.

Lemma binarysort_sorted sorted rest :
  Forall D sorted → Forall D rest → StronglySorted (not_after_in D lt) sorted →
  StronglySorted (not_after_in D lt) (binarysort lt sorted rest).
Proof.
  unfold binarysort. revert sorted.
  induction rest as [|x rest IH]; intros sorted Hs Hr Hsorted; simpl; [done|].
  apply Forall_cons in Hr as [Hx Hr]. apply IH; [|done|by apply binary_insert_sorted].
  rewrite binary_insert_Permutation. by constructor.
Qed.

Lemma ascending_run_sorted prev l run rest :
  D prev → Forall D l → ascending_run lt prev l = (run, rest) →
  Sorted (not_after_in D lt) (prev :: run).
Proof.
  revert prev run rest. induction l as [|x l IH]; intros prev run rest Hp Hl; simpl.
  { intros [= <- <-]. repeat constructor. }
  apply Forall_cons in Hl as [Hx Hl].
  destruct (lt x prev) eqn:Hxp; [intros [= <- <-]; repeat constructor|].
  destruct (ascending_run lt x l) as [run' rest'] eqn:E.
  intros [= <- <-]. constructor; [by eapply IH|]. by repeat constructor.
Qed.

#[local] Instance strictly_after_in_trans : Transitive (strictly_after_in D lt).
Proof.
  intros x y z (Hx & Hy & Hyx) (_ & Hz & Hzy). repeat split; try done.
  eapply (lt_le_trans z y x); eauto.
Qed.

Lemma descending_run_sorted prev l run rest :
  D prev → Forall D l → descending_run lt prev l = (run, rest) →
  Sorted (strictly_after_in D lt) (prev :: run).
Proof.
  revert prev run rest. induction l as [|x l IH]; intros prev run rest Hp Hl; simpl.
  { intros [= <- <-]. repeat constructor. }
  apply Forall_cons in Hl as [Hx Hl].
  destruct (lt x prev) eqn:Hxp; [|intros [= <- <-]; repeat constructor].
  destruct (descending_run lt x l) as [run' rest'] eqn:E.
  intros [= <- <-]. constructor; [by eapply IH|]. by repeat constructor.
Qed.

Lemma count_run_sorted l run rest :
  Forall D l → count_run lt l = (run, rest) →
  StronglySorted (not_after_in D lt) run.
Proof.
  intros Hl. destruct l as [|x l]; simpl; [intros [= <- <-]; constructor|].
  apply Forall_cons in Hl as [Hx Hl].
  destruct l as [|y l]; [intros [= <- <-]; repeat constructor|].
  destruct (lt y x) eqn:Hyx.
  - destruct (descending_run lt x (y :: l)) as [run' rest'] eqn:E.
    intros [= <- <-]. apply Sorted_StronglySorted; [apply _|].
    apply (descending_run_sorted _ _ _ _ Hx Hl), Sorted_reverse in E.
    eapply (Sorted_Forall_impl _ _ (λ _, True)); [|by apply Forall_true|exact E].
    intros a b _ _ (Hb & Ha & Hab). repeat split; auto.
  - destruct (ascending_run lt x (y :: l)) as [run' rest'] eqn:E.
    intros [= <- <-]. apply Sorted_StronglySorted; [apply _|].
    by eapply ascending_run_sorted.
Qed.

Lemma listsort_sorted l :
  Forall D l → StronglySorted (not_after_in D lt) (listsort lt l).
Proof.
  intros Hl. unfold listsort. destruct (count_run lt l) as [run rest] eqn:E.
  pose proof (count_run_Permutation _ _ _ E) as Hperm.
  rewrite <-Hperm in Hl. apply Forall_app in Hl as [Hrun Hrest].
  apply binarysort_sorted; [done..|]. eapply count_run_sorted; [|done].
  by rewrite <-Hperm, Forall_app.
Qed.

(** *** The result is stable *)

(** Among the items a predicate [P] selects, none of which is less than
    another, the order of the input is kept. *)
Context (P : A → Prop) `{!∀ x, Decision (P x)}.
Hypothesis P_ties : ∀ x y, D x → D y → P x → P y → lt x y = false.

Lemma binary_insert_filter a pivot :
  D pivot → Forall D a → StronglySorted (not_after_in D lt) a →
  filter P (binary_insert lt a pivot) = filter P (a ++ [pivot]).
Proof.
  intros Hp Ha Hsorted.
  destruct (bisect_split pivot a Hp Ha Hsorted) as [_ Hright].
  unfold binary_insert. set (i := bisect lt pivot a 0 (length a) (length a)) in *.
  rewrite <-(take_drop i a) in Ha. apply Forall_app in Ha as [_ Hadrop].
  rewrite <-(take_drop i a) at 3.
  rewrite !filter_app, !filter_cons, filter_nil, <-app_assoc.
  destruct (decide (P pivot)) as [HP|]; [|by rewrite app_nil_r].
  rewrite (filter_none P (drop i a)); [done|].
  rewrite Forall_forall in Hright, Hadrop. apply Forall_forall.
  intros y Hy HPy. specialize (Hright y Hy).
  by rewrite P_ties in Hright by auto.
Qed.

Lemma binarysort_filter sorted rest :
  Forall D sorted → Forall D rest → StronglySorted (not_after_in D lt) sorted →
  filter P (binarysort lt sorted rest) = filter P (sorted ++ rest).
Proof.
  unfold binarysort. revert sorted.
  induction rest as [|x rest IH]; intros sorted Hs Hr Hsorted; simpl.
  { by rewrite app_nil_r. }
  apply Forall_cons in Hr as [Hx Hr].
  rewrite IH; [|by rewrite binary_insert_Permutation; constructor|done
               |by apply binary_insert_sorted].
  rewrite filter_app, binary_insert_filter by done.
  by rewrite <-filter_app, <-app_assoc.
Qed.

Lemma count_run_filter l run rest :
  Forall D l → count_run lt l = (run, rest) →
  filter P (run ++ rest) = filter P l.
Proof.
  intros Hl. destruct l as [|x l]; simpl; [by intros [= <- <-]|].
  apply Forall_cons in Hl as [Hx Hl].
  destruct l as [|y l]; [by intros [= <- <-]|].
  destruct (lt y x) eqn:Hyx.
  - destruct (descending_run lt x (y :: l)) as [run' rest'] eqn:E.
    intros [= <- <-].
    pose proof (descending_run_sorted _ _ _ _ Hx Hl E) as Hsorted.
    apply Sorted_StronglySorted in Hsorted; [|apply _].
    rewrite filter_app, (filter_reverse_at_most_one P _ _ Hsorted), <-filter_app.
    + by rewrite (descending_run_app _ _ _ _ E).
    + intros a b Ha Hb (HDa & HDb & Hba). by rewrite P_ties in Hba.
  - destruct (ascending_run lt x (y :: l)) as [run' rest'] eqn:E.
    intros [= <- <-]. by rewrite (ascending_run_app _ _ _ _ E).
Qed.

Lemma listsort_filter l : Forall D l → filter P (listsort lt l) = filter P l.
Proof.
  intros Hl. unfold listsort. destruct (count_run lt l) as [run rest] eqn:E.
  pose proof (count_run_Permutation _ _ _ E) as Hperm.
  pose proof Hl as Hl'. rewrite <-Hperm in Hl'. apply Forall_app in Hl' as [Hrun Hrest].
  rewrite binarysort_filter; [|done..|exact (count_run_sorted _ _ _ Hl E)].
  exact (count_run_filter _ _ _ Hl E).
Qed.

End Sorting.
(** ** [get_pnl_data] and the loop of [process_traders] *)

Lemma get_pnl_data_loop_shape perfs period d :
  get_pnl_data_loop perfs period = Ok d →
  d = PnlData (NInt 0) (NInt 0) (NInt 0) ∨
  ∃ p r v, d = PnlData (NFloat p) (NFloat r) (NFloat v).
Proof.
  induction perfs as [|perf perfs IH]; simpl; intros H.
  - left. congruence.
  - inv_bind H; [|by apply IH]. right. inv_bind H. subst. eauto.
Qed.

Lemma get_pnl_data_shape trader period d :
  get_pnl_data trader period = Ok d →
  d = PnlData (NInt 0) (NInt 0) (NInt 0) ∨
  ∃ p r v, d = PnlData (NFloat p) (NFloat r) (NFloat v).
Proof.
  unfold get_pnl_data. intros H. inv_bind H.
  by eapply get_pnl_data_loop_shape.
Qed.

Lemma process_traders_loop_cons trader traders period :
  process_traders_loop (trader :: traders) period =
    e ← ranked_entry trader period;
    processed ← process_traders_loop traders period;
    Ok (option_list e ++ processed).
Proof.
  simpl. unfold ranked_entry.
  destruct (get_pnl_data trader period) as [d|]; simpl; [|done].
  destruct (num_eqb (pd_pnl d) (NInt 0)); simpl.
  { by destruct (process_traders_loop traders period). }
  repeat match goal with
  | |- context [?m ≫= _] =>
      lazymatch m with
      | process_traders_loop _ _ => fail
      | _ => destruct m; simpl; [|done]
      end
  end.
  done.
Qed.

Lemma ranked_entry_Some trader period r :
  ranked_entry trader period = Ok (Some r) →
  ∃ d, get_pnl_data trader period = Ok d ∧ pnl r = pd_pnl d ∧
       num_eqb (pd_pnl d) (NInt 0) = false ∧ positions r = None.
Proof.
  unfold ranked_entry. intros H. inv_bind H; simplify_eq/=.
  eexists. repeat split; eauto.
Qed.

Lemma ranked_entry_float trader period r :
  ranked_entry trader period = Ok (Some r) → ∃ f, pnl r = NFloat f.
Proof.
  intros (d & Hd & -> & Hnz & _)%ranked_entry_Some.
  destruct (get_pnl_data_shape _ _ _ Hd) as [->|(p & ? & ? & ->)]; [done|].
  eauto.
Qed.

Lemma process_traders_loop_elem_of traders period processed r :
  process_traders_loop traders period = Ok processed →
  r ∈ processed ↔ ∃ trader, trader ∈ traders ∧ ranked_entry trader period = Ok (Some r).
Proof.
  revert processed. induction traders as [|t ts IH]; intros processed.
  - intros [= <-]. set_solver.
  - rewrite process_traders_loop_cons. intros H. inv_bind H. subst.
    rewrite elem_of_app, (IH _ Ha0). split.
    + intros [Hr|(t' & ? & ?)]; [|set_solver].
      destruct a as [r'|]; simpl in Hr; [|set_solver].
      apply list_elem_of_singleton in Hr as ->. exists t. set_solver.
    + intros (t' & [->|Ht']%elem_of_cons & Hr); [|eauto].
      left. rewrite Ha in Hr. injection Hr as ->. set_solver.
Qed.

Lemma process_traders_loop_skip l1 trader l2 period :
  ranked_entry trader period = Ok None →
  process_traders_loop (l1 ++ trader :: l2) period = process_traders_loop (l1 ++ l2) period.
Proof.
  intros Hskip. induction l1 as [|t l1 IH].
  - simpl app. rewrite process_traders_loop_cons, Hskip. simpl.
    by destruct (process_traders_loop l2 period).
  - rewrite <-!app_comm_cons, !process_traders_loop_cons. by rewrite IH.
Qed.

Lemma process_traders_Ok ts period n out :
  process_traders (PList ts) period n = Ok out ↔
  ∃ processed, process_traders_loop ts period = Ok processed ∧
               out = slice_to n (list_sort pnl true processed).
Proof.
  unfold process_traders. simpl. rewrite bind_Ok. naive_solver.
Qed.

(** ** The ranked list *)

Lemma list_sort_Permutation {A} (key : A → num) (b : bool) l : list_sort key b l ≡ₚ l.
Proof.
  unfold list_sort. destruct b.
  - by rewrite reverse_Permutation, listsort_Permutation, reverse_Permutation.
  - apply listsort_Permutation.
Qed.

#[local] Instance pnl_ge_trans : Transitive pnl_ge.
Proof.
  intros a b c (f & g & Ha & Hb & Hfg) (g' & h & Hb' & Hc & Hgh).
  rewrite Hb in Hb'. injection Hb' as <-.
  exists f, h. eauto using SFleb_trans.
Qed.

Lemma pnl_ge_geb a b : pnl_ge a b → num_geb (pnl a) (pnl b) = true.
Proof. intros (f & g & -> & -> & H). by rewrite num_geb_float. Qed.

Lemma pnl_ge_refl a : float_pnl a → pnl_ge a a.
Proof.
  intros (f & Hf & Hnan). exists f, f. repeat split; try done.
  rewrite <-num_geb_float. apply not_ltb_geb; try done.
  unfold num_ltb. simpl. destruct (SFcompare f f) as [[]|] eqn:E; try done.
  by rewrite (SFcompare_antisym _ _ _ E) in E.
Qed.

Lemma geb_not_ltb (a b : num) : num_geb a b = true → num_ltb a b = false.
Proof. unfold num_geb, num_ltb. by destruct (num_compare a b) as [[]|]. Qed.

(** On entries whose pnl is a float other than NaN, [<] on the pnl is a
    strict weak order. *)
Lemma float_pnl_neg_trans x y z :
  float_pnl x → float_pnl y → float_pnl z →
  num_ltb (pnl y) (pnl x) = false → num_ltb (pnl z) (pnl y) = false →
  num_ltb (pnl z) (pnl x) = false.
Proof.
  intros (f & -> & Hf) (g & -> & Hg) (h & -> & Hh) Hyx Hzy.
  apply geb_not_ltb. rewrite num_geb_float.
  apply not_ltb_geb in Hyx, Hzy; try done. rewrite num_geb_float in Hyx, Hzy.
  eauto using SFleb_trans.
Qed.

Lemma same_pnl_ties f a b :
  (∃ g, pnl a = NFloat g) → (∃ h, pnl b = NFloat h) →
  same_pnl f a → same_pnl f b → num_ltb (pnl a) (pnl b) = false.
Proof.
  unfold same_pnl, num_eqb, num_ltb. intros [g ->] [h ->]. simpl.
  destruct (SFcompare g f) as [[]|] eqn:Hg; try done.
  destruct (SFcompare h f) as [[]|] eqn:Hh; try done.
  apply SFcompare_antisym in Hh. simpl in Hh.
  by rewrite (SFcompare_Eq_trans _ _ _ Hg Hh).
Qed.

(** Without NaN the sorted list is descending. *)
Lemma list_sort_reverse_StronglySorted processed :
  Forall float_pnl processed → StronglySorted pnl_ge (list_sort pnl true processed).
Proof.
  intros Hfl. unfold list_sort.
  set (lt := λ a b : ranked, num_ltb (pnl a) (pnl b)).
  assert (StronglySorted (not_after_in float_pnl lt) (listsort lt (reverse processed)))
    as Hsorted.
  { apply listsort_sorted.
    - intros x y. apply num_ltb_asym.
    - apply float_pnl_neg_trans.
    - by rewrite reverse_Permutation. }
  apply StronglySorted_Sorted, Sorted_reverse in Hsorted.
  apply Sorted_StronglySorted; [apply _|].
  eapply (Sorted_Forall_impl _ _ (λ _, True)); [|by apply Forall_true|exact Hsorted].
  intros a b _ _ ((g & Hg & Hgn) & (f & Hf & Hfn) & Hlt). exists f, g.
  unfold lt in Hlt. rewrite Hf, Hg in Hlt. repeat split; try done.
  rewrite <-num_geb_float. by apply not_ltb_geb.
Qed.

(** Without NaN the sort is stable: entries with the same pnl keep the
    order of the input. *)
Lemma list_sort_reverse_stable f processed :
  Forall float_pnl processed →
  filter (same_pnl f) (list_sort pnl true processed) = filter (same_pnl f) processed.
Proof.
  intros Hfl. unfold list_sort.
  rewrite filter_reverse, listsort_filter with (D := float_pnl).
  - by rewrite filter_reverse, reverse_involutive.
  - intros x y. apply num_ltb_asym.
  - apply float_pnl_neg_trans.
  - intros x y (g & Hg & _) (h & Hh & _). apply same_pnl_ties; eauto.
  - by rewrite reverse_Permutation.
Qed.

Lemma process_traders_loop_float_pnl ts period processed :
  Forall (pnl_not_nan period) ts →
  process_traders_loop ts period = Ok processed →
  Forall float_pnl processed.
Proof.
  intros Hnan Hloop. apply Forall_forall. intros r Hr.
  apply (process_traders_loop_elem_of _ _ _ _ Hloop) in Hr as (t & Ht & Hr).
  destruct (ranked_entry_float _ _ _ Hr) as [f Hf].
  apply ranked_entry_Some in Hr as (d & Hd & Hpnl & _).
  rewrite Forall_forall in Hnan. specialize (Hnan t Ht d Hd).
  rewrite <-Hpnl, Hf in Hnan. by exists f.
Qed.


Lemma two_traders_not_nan : Forall (pnl_not_nan "day") two_traders.
Proof.
  repeat constructor; intros d Hd; vm_compute in Hd; by simplify_eq.
Defined.



(** The two entries of that list cannot be put in a descending order at
    all: the failure does not depend on how the sort treats NaN. *)
Lemma nan_no_descending_order l out :
  process_traders (PList nan_traders) "day" 10 = Ok out →
  l ≡ₚ out → ¬ descending_by_pnl l.
Proof.
  intros Hout Hl Hdesc. vm_compute in Hout. injection Hout as <-.
  symmetry in Hl. apply Permutation_length_2_inv in Hl as [->| ->];
    specialize (Hdesc 0%nat _ _ eq_refl eq_refl); vm_compute in Hdesc; done.
Qed.

(** C2.  A trader whose pnl for the window is zero is skipped: the ranked
    list is the one computed without the trader, whatever the record says
    about other windows, and no entry of a ranked list has a pnl equal to
    zero. *)
Theorem zero_pnl_never_ranked trader period d l1 l2 n :
  get_pnl_data trader period = Ok d →
  num_eqb (pd_pnl d) (NInt 0) = true →
  process_traders (PList (l1 ++ trader :: l2)) period n =
    process_traders (PList (l1 ++ l2)) period n ∧
  ∀ out r, process_traders (PList (l1 ++ trader :: l2)) period n = Ok out →
           r ∈ out → num_eqb (pnl r) (NInt 0) = false.
Proof.
  intros Hd Hzero.
  assert (ranked_entry trader period = Ok None) as Hskip.
  { unfold ranked_entry. rewrite Hd. simpl. by rewrite Hzero. }
  split.
  { unfold process_traders. simpl. by rewrite process_traders_loop_skip. }
  intros out r (processed & Hloop & ->)%process_traders_Ok Hr.
  assert (r ∈ processed) as Hin.
  { unfold slice_to in Hr.
    destruct (0 <=? n); apply elem_of_take in Hr as (i & Hi & _);
      apply list_elem_of_lookup_2 in Hi;
      by rewrite list_sort_Permutation in Hi. }
  apply (process_traders_loop_elem_of _ _ _ _ Hloop) in Hin as (t & _ & Ht).
  apply ranked_entry_Some in Ht as (d' & _ & -> & Hnz & _). done.
Qed.

Lemma zero_pnl_never_ranked_witness :
  get_pnl_data (sample_trader "0xA" "500" "0") "week" =
    Ok {| pd_pnl := NFloat (S754_zero false);
          pd_roi := NFloat (S754_finite false 7205759403792794 (-55));
          pd_volume := NFloat (S754_finite false 5629499534213120 (-48)) |} ∧
  num_eqb (NFloat (S754_zero false)) (NInt 0) = true ∧
  process_traders (PList two_traders) "week" 10 =
    process_traders (PList [sample_trader "0xB" "-100" "300"]) "week" 10.
Proof.
  split; [vm_compute; reflexivity|]. split; [reflexivity|].
  refine (proj1 (zero_pnl_never_ranked (sample_trader "0xA" "500" "0") "week" _
                   [] [sample_trader "0xB" "-100" "300"] 10 _ _)).
  - vm_compute. reflexivity.
  - reflexivity.
Defined.

(** ** [get_pnl_data] against the specification *)

Lemma window_figure_entry perf k figures key :
  window_entry perf = Some (k, figures) →
  py_index perf 0 = Ok k ∧ window_figure perf key = py_float (figure figures key).
Proof.
  destruct perf as [| | | | |[|k' [|[] ?]]|]; try done.
  by intros [= -> ->].
Qed.

Lemma get_pnl_data_loop_spec perfs seq period :
  Forall2 (λ perf e, window_entry perf = Some e) perfs seq →
  get_pnl_data_loop perfs period = spec_pnl_data period seq.
Proof.
  unfold spec_pnl_data, first_match.
  induction 1 as [|perf [k figures] perfs seq Hperf _ IH]; [done|].
  simpl. destruct (window_figure_entry _ _ _ "pnl" Hperf) as [-> Hp].
  pose proof (window_figure_entry _ _ _ "roi" Hperf) as [_ Hr].
  pose proof (window_figure_entry _ _ _ "vlm" Hperf) as [_ Hv].
  simpl. destruct (py_eq_str k period); [|done].
  by rewrite Hp, Hr, Hv.
Qed.

(** C5.  On a trader record whose window performances are a sequence of
    [[key, {...}]] entries (none when the field is absent),
    [get_pnl_data] gives the figures of the first entry whose key matches,
    each coerced to a float, and the all-zero figures when no entry
    matches. *)
Theorem get_pnl_data_first_match trader period seq :
  window_performances trader = Some seq →
  get_pnl_data trader period =
    match first_match period seq with
    | Some figures =>
        p ← py_float (figure figures "pnl");
        r ← py_float (figure figures "roi");
        v ← py_float (figure figures "vlm");
        Ok {| pd_pnl := NFloat p; pd_roi := NFloat r; pd_volume := NFloat v |}
    | None => Ok {| pd_pnl := NInt 0; pd_roi := NInt 0; pd_volume := NInt 0 |}
    end.
Proof.
  intros Hseq. change (get_pnl_data trader period = spec_pnl_data period seq).
  unfold window_performances in Hseq.
  destruct trader as [| | | | | |fields]; try done.
  unfold get_pnl_data. simpl.
  destruct (dict_lookup "windowPerformances" fields) as [[| | | | |perfs|]|];
    simplify_eq/=; [|done].
  apply mapM_Some in Hseq. by apply get_pnl_data_loop_spec.
Qed.

Lemma get_pnl_data_first_match_witness :
  window_performances (sample_trader "0xA" "500" "0") = Some sample_sequence ∧
  get_pnl_data (sample_trader "0xA" "500" "0") "week" =
    Ok {| pd_pnl := NFloat (S754_zero false);
          pd_roi := NFloat (S754_finite false 7205759403792794 (-55));
          pd_volume := NFloat (S754_finite false 5629499534213120 (-48)) |} ∧
  window_performances bare_trader = Some [] ∧
  get_pnl_data bare_trader "week" = Ok zero_figures.
Proof.
  split; [reflexivity|]. split; [|split; [reflexivity|]].
  - rewrite (get_pnl_data_first_match
               (sample_trader "0xA" "500" "0") "week" sample_sequence eq_refl).
    vm_compute. reflexivity.
  - rewrite (get_pnl_data_first_match bare_trader "week" [] eq_refl).
    reflexivity.
Defined.

Lemma coerced_figures_returns figures :
  returns (coerced_figures figures) ↔
  Forall (λ k, coercible (figure figures k)) figure_keys.
Proof.
  unfold coerced_figures, figure_keys, coercible, returns.
  rewrite !Forall_cons, Forall_nil. split.
  - intros [d H]. inv_bind H. eauto 10.
  - intros ([p ->] & [r ->] & [v ->] & _). simpl. eauto.
Qed.

(** C6, as amended.  On a trader record whose window performances are a
    sequence of [[key, {...}]] entries (none when the field is absent),
    [get_pnl_data] returns a result exactly when each of the pnl, roi and
    vlm fields of the first matching entry is absent or coercible to a
    float: an absent field, entry or sequence is defaulted, a field that
    is present and not coercible raises. *)
Theorem get_pnl_data_returns_iff trader period seq :
  window_performances trader = Some seq →
  returns (get_pnl_data trader period) ↔
    match first_match period seq with
    | Some figures => Forall (λ k, coercible (figure figures k)) figure_keys
    | None => True
    end.
Proof.
  intros Hseq. rewrite (get_pnl_data_first_match _ _ _ Hseq).
  destruct (first_match period seq) as [figures|].
  - apply coerced_figures_returns.
  - split; [done|]. intros _. by eexists.
Qed.

Lemma get_pnl_data_returns_iff_witness :
  window_performances (sample_trader "0xA" "500" "0") = Some sample_sequence ∧
  returns (get_pnl_data (sample_trader "0xA" "500" "0") "day").
Proof.
  split; [reflexivity|].
  apply (get_pnl_data_returns_iff (sample_trader "0xA" "500" "0") "day"
           sample_sequence eq_refl).
  repeat constructor; eexists; vm_compute; reflexivity.
Defined.

(** C6 as stated fails: a pnl that is present and is not a number makes
    [get_pnl_data] raise. *)
Lemma get_pnl_data_text_pnl_raises :
  get_pnl_data text_pnl_trader "day" = Raise ValueError ∧
  ¬ returns (get_pnl_data text_pnl_trader "day").
Proof.
  assert (get_pnl_data text_pnl_trader "day" = Raise ValueError) as H
    by (vm_compute; reflexivity).
  split; [done|]. rewrite H. by intros [d Hd].
Qed.

(** ** [fetch_positions] *)

Lemma SFabs_not_negative s : num_ltb (NFloat (SFabs s)) (NInt 0) = false.
Proof.
  unfold num_ltb. destruct s as [| | |sg m e]; simpl; try done.
  destruct (Z.leb_spec 0 e); simpl; [|done].
  assert (0 < Z.pos m * 2 ^ e) as Hpos by (apply Z.mul_pos_pos; lia).
  by destruct (Z.pos m * 2 ^ e).
Qed.

Lemma SFabs_non_negative s :
  float_is_nan s = false → num_geb (NFloat (SFabs s)) (NInt 0) = true.
Proof.
  unfold num_geb. destruct s as [| | |sg m e]; simpl; try done.
  intros _. destruct (Z.leb_spec 0 e); simpl; [|done].
  assert (0 < Z.pos m * 2 ^ e) as Hpos by (apply Z.mul_pos_pos; lia).
  by destruct (Z.pos m * 2 ^ e).
Qed.

Lemma make_position_of_size pos szi p :
  make_position pos szi = Ok p → position_of_size szi p.
Proof.
  unfold make_position. intros H. inv_bind H. subst p.
  repeat split; simpl; auto using SFabs_not_negative, SFabs_non_negative.
Qed.

Lemma positions_loop_sizes aps ps :
  positions_loop aps = Ok ps →
  ∃ szis, Forall2 (λ ap s, signed_size ap = Ok s) aps szis ∧
          Forall2 position_of_size (filter (λ s, szi_nonzero s = true) (omap id szis)) ps.
Proof.
  revert ps. induction aps as [|ap aps IH]; simpl; intros ps H.
  { injection H as <-. exists []. split; constructor. }
  apply bind_Ok in H as (pos & Hpos & H).
  destruct (py_truthy pos) eqn:Htruthy.
  - apply bind_Ok in H as (v & Hv & H). apply bind_Ok in H as (szi & Hszi & H).
    assert (signed_size ap = Ok (Some szi)) as Hsize.
    { unfold signed_size. rewrite Hpos. simpl. rewrite Htruthy, Hv. simpl.
      by rewrite Hszi. }
    destruct (szi_nonzero szi) eqn:Hnz.
    + apply bind_Ok in H as (p & Hp & H). apply bind_Ok in H as (ps' & Hps' & H).
      injection H as <-. destruct (IH _ Hps') as (szis & Hszis & Hrel).
      exists (Some szi :: szis). split; [by constructor|].
      simpl. rewrite filter_cons_True by done.
      constructor; [by eapply make_position_of_size|done].
    + destruct (IH _ H) as (szis & Hszis & Hrel).
      exists (Some szi :: szis). split; [by constructor|].
      simpl. rewrite filter_cons_False; [done|]. by rewrite Hnz.
  - destruct (IH _ H) as (szis & Hszis & Hrel).
    exists (None :: szis). split; [|done]. constructor; [|done].
    unfold signed_size. rewrite Hpos. simpl. by rewrite Htruthy.
Qed.

(** C4.  When the response to the positions request is decoded and read
    without an error, the positions [fetch_positions] returns are, in
    order, those of the asset positions whose signed size is not zero;
    the size of each is the absolute value of the signed size, it is not
    negative (and is greater than or equal to zero unless the signed size
    is NaN), and the direction is [Long] if the signed size is greater
    than zero and [Short] otherwise. *)
Theorem fetch_positions_sizes w a data ps :
  response_json (info_reply w a) = Ok data →
  extract_positions data = Ok ps →
  fetch_positions w a = ps ∧
  ∃ aps szis,
    asset_positions data = Ok aps ∧
    Forall2 (λ ap s, signed_size ap = Ok s) aps szis ∧
    Forall2 position_of_size (filter (λ s, szi_nonzero s = true) (omap id szis)) ps.
Proof.
  intros Hdata Hps. split.
  { unfold fetch_positions. rewrite Hdata. simpl. by rewrite Hps. }
  unfold extract_positions in Hps.
  apply bind_Ok in Hps as (v & Hv & Hps). apply bind_Ok in Hps as (aps & Haps & Hps).
  destruct (positions_loop_sizes _ _ Hps) as (szis & ? & ?).
  exists aps, szis. split; [|done].
  unfold asset_positions. rewrite Hv. done.
Qed.

Lemma fetch_positions_sizes_witness :
  response_json (info_reply sample_world "0xA") = Ok sample_positions ∧
  (∃ ps, extract_positions sample_positions = Ok ps ∧
         fetch_positions sample_world "0xA" = ps ∧ length ps = 2%nat).
Proof.
  split; [reflexivity|].
  eexists. split; [vm_compute; reflexivity|].
  split; [|reflexivity].
  refine (proj1 (fetch_positions_sizes sample_world "0xA" sample_positions _ eq_refl _)).
  vm_compute. reflexivity.
Defined.

(** ** [fetch_leaderboard] and the early return of [main] *)

Lemma fetch_failure_raises r : fetch_failure r → raises (response_json r).
Proof.
  destruct 1 as [|status body Hst|status]; simpl.
  - by eexists.
  - unfold raise_for_status.
    destruct (Z.leb_spec 400 status), (Z.ltb_spec status 600); try lia.
    by eexists.
  - destruct (raise_for_status status); by eexists.
Qed.

Lemma fetch_leaderboard_failure w :
  fetch_failure (leaderboard_reply w) → fetch_leaderboard w = PList [].
Proof.
  intros [e He]%fetch_failure_raises. unfold fetch_leaderboard. by rewrite He.
Qed.

Lemma main_empty_leaderboard w disk :
  fetch_leaderboard w = PList [] → main w disk = (Ok (), disk).
Proof. intros H. unfold main, main_output. by rewrite H. Qed.

(** C3, as amended.  When the leaderboard fetch fails (the request raises,
    the status is 4xx or 5xx, or the body does not decode) or yields an
    empty list, [fetch_leaderboard] returns the empty list and [main]
    returns early: it ends normally and [data.json] is left as it was,
    absent or with its old content. *)
Theorem main_aborts_without_writing w disk :
  fetch_failure (leaderboard_reply w) ∨ fetch_leaderboard w = PList [] →
  fetch_leaderboard w = PList [] ∧ main w disk = (Ok (), disk).
Proof.
  intros [Hfail|Hempty].
  - pose proof (fetch_leaderboard_failure _ Hfail). eauto using main_empty_leaderboard.
  - eauto using main_empty_leaderboard.
Qed.

Lemma main_aborts_without_writing_witness :
  fetch_failure (leaderboard_reply offline_world) ∧
  main offline_world (Some old_snapshot) = (Ok (), Some old_snapshot) ∧
  fetch_leaderboard empty_board_world = PList [] ∧
  main empty_board_world None = (Ok (), None).
Proof.
  split; [constructor|]. split; [|split; [reflexivity|]].
  - apply (main_aborts_without_writing offline_world (Some old_snapshot)).
    left. constructor.
  - apply (main_aborts_without_writing empty_board_world None).
    right. reflexivity.
Defined.

(** C3 as stated fails for a status that is neither 2xx nor an error
    status: [raise_for_status] lets a 300 reply through, and with a
    leaderboard in its body [main] goes on and writes the file. *)
Lemma main_writes_on_status_300 :
  (∃ body, leaderboard_reply status_300_world = Reply 300 body) ∧
  ¬ status_2xx 300 ∧
  ∃ output, main status_300_world None = (Ok (), Some output).
Proof.
  split; [by eexists|]. split; [unfold status_2xx; lia|].
  eexists. vm_compute. reflexivity.
Qed.

(** C10.  When the leaderboard request succeeds with a 2xx status and a
    JSON body that has no [leaderboardRows] or has an empty list there,
    [fetch_leaderboard] returns the empty list and [main] returns early
    without writing; a run whose leaderboard fetch failed ends in the
    same way, with the same file. *)
Theorem main_empty_response_like_failure w status body disk :
  leaderboard_reply w = Reply status (Some body) →
  status_2xx status →
  lacks_rows body ∨ empty_rows body →
  fetch_leaderboard w = PList [] ∧
  main w disk = (Ok (), disk) ∧
  ∀ w', fetch_failure (leaderboard_reply w') →
        fetch_leaderboard w' = fetch_leaderboard w ∧ main w' disk = main w disk.
Proof.
  intros Hreply Hst Hbody.
  assert (fetch_leaderboard w = PList []) as Hempty.
  { unfold fetch_leaderboard. rewrite Hreply. simpl.
    unfold raise_for_status, status_2xx in *.
    destruct (Z.leb_spec 400 status); [lia|]. simpl.
    destruct Hbody as [Hlacks|(fields & -> & Hrows)].
    - destruct body; try done. simpl in *. by rewrite Hlacks.
    - simpl. by rewrite Hrows. }
  split; [done|]. split; [by apply main_empty_leaderboard|].
  intros w' Hfail. pose proof (fetch_leaderboard_failure _ Hfail) as Hw'.
  split; [congruence|]. by rewrite !main_empty_leaderboard.
Qed.

Lemma main_empty_response_like_failure_witness :
  leaderboard_reply empty_board_world =
    Reply 200 (Some (PDict [("leaderboardRows", PList [])])) ∧
  status_2xx 200 ∧
  empty_rows (PDict [("leaderboardRows", PList [])]) ∧
  main empty_board_world (Some old_snapshot) = (Ok (), Some old_snapshot) ∧
  main offline_world (Some old_snapshot) = main empty_board_world (Some old_snapshot).
Proof.
  assert (empty_rows (PDict [("leaderboardRows", PList [])])) as Hrows
    by (by eexists).
  assert (status_2xx 200) as Hst by (unfold status_2xx; lia).
  split; [reflexivity|]. split; [exact Hst|]. split; [exact Hrows|].
  destruct (main_empty_response_like_failure empty_board_world 200 _
              (Some old_snapshot) eq_refl Hst (or_intror Hrows))
    as (_ & Hmain & Hsame).
  split; [exact Hmain|]. apply Hsame. constructor.
Defined.

(** ** Positions attached by [main] *)

Lemma foldl_insert_lookup {V} (f : string → V) (l : list string) (m : gmap string V) a :
  foldl (λ m a, <[ a := f a ]> m) m l !! a =
    if decide (a ∈ l) then Some (f a) else m !! a.
Proof.
  revert m. induction l as [|b l IH]; intros m; cbn [foldl].
  { by rewrite decide_False by set_solver. }
  rewrite IH. destruct (decide (a ∈ l)) as [Hin|Hnin].
  - by rewrite decide_True by set_solver.
  - destruct (decide (a = b)) as [->|Hne].
    + rewrite decide_True by set_solver. by rewrite lookup_insert_eq.
    + rewrite decide_False by set_solver. by rewrite lookup_insert_ne.
Qed.

Lemma fetch_all_lookup w (all_addresses : gset string) a :
  fetch_all w all_addresses !! a =
    if decide (a ∈ all_addresses) then Some (fetch_positions w a) else None.
Proof.
  unfold fetch_all. rewrite foldl_insert_lookup.
  destruct (decide (a ∈ elements all_addresses)) as [Hin|Hnin];
    rewrite elem_of_elements in *.
  - by rewrite decide_True.
  - by rewrite decide_False.
Qed.

Lemma collect_addresses_elem_of ts all_addresses t :
  collect_addresses ts = Ok all_addresses → t ∈ ts →
  ∃ a, address t = PStr a ∧ a ∈ all_addresses.
Proof.
  revert all_addresses. induction ts as [|t' ts IH]; intros S; simpl.
  { set_solver. }
  intros H Ht. inv_bind H. subst S. unfold address_str in Ha.
  apply elem_of_cons in Ht as [->|Ht].
  - destruct (address t') as [| | | |s| |]; simplify_eq. exists a. set_solver.
  - destruct (IH _ Ha0 Ht) as (b & ? & ?). exists b. set_solver.
Qed.

Lemma attach_fetch_all w ts all_addresses :
  collect_addresses ts = Ok all_addresses →
  Forall (λ t, attach (fetch_all w all_addresses) t = attach_with (fetch_positions w) t) ts.
Proof.
  intros HS. apply Forall_forall. intros t Ht.
  destruct (collect_addresses_elem_of _ _ _ HS Ht) as (a & Ha & Hin).
  unfold attach, attach_with. rewrite Ha, fetch_all_lookup.
  by rewrite decide_True.
Qed.

(** What [main] is about to write: the two rankings, each entry with the
    positions fetched for its address. *)
Lemma main_output_Some w output :
  main_output w = Ok (Some output) ↔
  ∃ daily_top weekly_top all_addresses,
    py_truthy (fetch_leaderboard w) = true ∧
    process_traders (fetch_leaderboard w) "day" 10 = Ok daily_top ∧
    process_traders (fetch_leaderboard w) "week" 10 = Ok weekly_top ∧
    collect_addresses (daily_top ++ weekly_top) = Ok all_addresses ∧
    output = {| daily := attach_with (fetch_positions w) <$> daily_top;
                weekly := attach_with (fetch_positions w) <$> weekly_top;
                lastUpdated := utcnow_isoformat w +:+ "Z" |}.
Proof.
  unfold main_output. split.
  - intros H. destruct (py_truthy (fetch_leaderboard w)); simpl in H; [|done].
    apply bind_Ok in H as (daily_top & Hd & H).
    apply bind_Ok in H as (weekly_top & Hw & H).
    apply bind_Ok in H as (S & HS & H).
    exists daily_top, weekly_top, S. repeat split; try done.
    pose proof (attach_fetch_all w _ _ HS) as [Hfd Hfw]%Forall_app.
    injection H as <-. f_equal; by apply Forall_fmap_ext_1.
  - intros (daily_top & weekly_top & S & -> & -> & -> & HS & ->). simpl.
    rewrite HS. simpl.
    pose proof (attach_fetch_all w _ _ HS) as [Hfd Hfw]%Forall_app.
    do 2 f_equal. f_equal; by apply Forall_fmap_ext_1.
Qed.





(** ** Ties *)

Lemma process_traders_loop_entries ts period es :
  Forall2 (λ t e, ranked_entry t period = Ok e) ts es →
  process_traders_loop ts period = Ok (omap id es).
Proof.
  induction 1 as [|t e ts es Ht _ IH]; [done|].
  rewrite process_traders_loop_cons, Ht, IH. simpl. by destruct e.
Qed.


Lemma slice_to_prefix {A} n (l : list A) : slice_to n l `prefix_of` l.
Proof. unfold slice_to. destruct (0 <=? n); apply prefix_take. Qed.

Lemma filter_prefix {A} (P : A → Prop) `{!∀ x, Decision (P x)} (l1 l2 : list A) :
  l1 `prefix_of` l2 → filter P l1 `prefix_of` filter P l2.
Proof. intros [k ->]. rewrite filter_app. by apply prefix_app_r. Qed.

(** C9, as amended.  [process_traders] is a function of the list, the
    window key and the limit: two runs on the same arguments end in the
    same way.  When no trader's pnl for the window is NaN, the entries of
    its result that have one and the same pnl are the first of the
    entries with that pnl in the order of the input. *)
Theorem process_traders_deterministic_stable ts period n es out :
  Forall2 (λ t e, ranked_entry t period = Ok e) ts es →
  process_traders (PList ts) period n = Ok out →
  (∀ o1 o2, process_traders (PList ts) period n = o1 →
            process_traders (PList ts) period n = o2 → o1 = o2) ∧
  (Forall (pnl_not_nan period) ts →
   ∀ f, filter (same_pnl f) out `prefix_of` filter (same_pnl f) (omap id es)).
Proof.
  intros Hes (processed & Hloop & ->)%process_traders_Ok.
  split; [congruence|]. intros Hnan f.
  pose proof (process_traders_loop_float_pnl _ _ _ Hnan Hloop) as Hfl.
  rewrite (process_traders_loop_entries _ _ _ Hes) in Hloop. injection Hloop as <-.
  rewrite <-(list_sort_reverse_stable f (omap id es)) by done.
  apply filter_prefix, slice_to_prefix.
Qed.

Lemma tied_traders_not_nan : Forall (pnl_not_nan "day") tied_traders.
Proof.
  repeat constructor; intros d Hd; vm_compute in Hd; by simplify_eq.
Defined.

Lemma process_traders_deterministic_stable_witness :
  Forall (pnl_not_nan "day") tied_traders ∧
  ∃ es out,
    Forall2 (λ t e, ranked_entry t "day" = Ok e) tied_traders es ∧
    process_traders (PList tied_traders) "day" 10 = Ok out ∧
    address <$> out = [PStr "0xC"; PStr "0xB"; PStr "0xD"; PStr "0xE"; PStr "0xA"] ∧
    ∀ f, filter (same_pnl f) out `prefix_of` filter (same_pnl f) (omap id es).
Proof.
  split; [exact tied_traders_not_nan|].
  eexists _, _. split; [|split; [|split]]; cycle 3.
  - refine (proj2 (process_traders_deterministic_stable tied_traders "day" 10 _ _ _ _)
              tied_traders_not_nan).
    + unfold tied_traders. repeat (econstructor; [vm_compute; reflexivity|]).
      constructor.
    + vm_compute. reflexivity.
  - unfold tied_traders. repeat (constructor; [reflexivity|]). constructor.
  - reflexivity.
  - reflexivity.
Defined.

(** C9 as stated fails: with a NaN among the pnl values the sort can
    swap two entries that have the same pnl.  Here ["0xA"] comes before
    ["0xC"] in the input and after it in the result. *)
Lemma process_traders_nan_swaps_ties :
  ∃ es out,
    Forall2 (λ t e, ranked_entry t "day" = Ok e) nan_tied_traders es ∧
    process_traders (PList nan_tied_traders) "day" 10 = Ok out ∧
    address <$> out = [PStr "0xC"; PStr "0xD"; PStr "0xE"; PStr "0xA";
                       PStr "0xB"; PStr "0xF"; PStr "0xG"] ∧
    address <$> filter (same_pnl float_one) (omap id es) = [PStr "0xA"; PStr "0xC"] ∧
    address <$> filter (same_pnl float_one) out = [PStr "0xC"; PStr "0xA"] ∧
    ¬ filter (same_pnl float_one) out `prefix_of` filter (same_pnl float_one) (omap id es).
Proof.
  eexists _, _. split; [|split; [|split; [|split; [|split]]]].
  - unfold nan_tied_traders. repeat (econstructor; [vm_compute; reflexivity|]).
    constructor.
  - vm_compute. reflexivity.
  - reflexivity.
  - vm_compute. reflexivity.
  - vm_compute. reflexivity.
  - intros [k Hk]. vm_compute in Hk. discriminate Hk.
Qed.

(** ** The inclusion threshold *)

(** C7, as amended.  When no trader's pnl for the window is NaN, a trader
    with a nonzero pnl is in the ranked list if fewer than 10 traders
    qualify or its pnl exceeds the pnl of the 10th entry; and when it is
    in the list, fewer than 10 traders qualify or its pnl is greater than
    or equal to the pnl of the 10th entry. *)
Theorem ranked_by_threshold ts period processed out trader r :
  Forall (pnl_not_nan period) ts →
  process_traders_loop ts period = Ok processed →
  process_traders (PList ts) period 10 = Ok out →
  trader ∈ ts →
  ranked_entry trader period = Ok (Some r) →
  ((length processed < 10)%nat ∨
   (∃ r10, out !! 9%nat = Some r10 ∧ num_gtb (pnl r) (pnl r10) = true) → r ∈ out) ∧
  (r ∈ out →
   (length processed < 10)%nat ∨
   ∃ r10, out !! 9%nat = Some r10 ∧ num_geb (pnl r) (pnl r10) = true).
Proof.
  intros Hnan Hloop (processed' & Hloop' & ->)%process_traders_Ok Ht Hr.
  assert (processed' = processed) as -> by congruence. clear Hloop'.
  change 10 with (Z.of_nat 10). rewrite slice_to_take.
  pose proof (process_traders_loop_float_pnl _ _ _ Hnan Hloop) as Hfl.
  pose proof (list_sort_reverse_StronglySorted _ Hfl) as Hsorted.
  assert (r ∈ list_sort pnl true processed) as Hin.
  { rewrite list_sort_Permutation.
    apply (process_traders_loop_elem_of _ _ _ _ Hloop). eauto. }
  set (sorted := list_sort pnl true processed) in *.
  assert (length sorted = length processed) as Hlen
    by (unfold sorted; by rewrite list_sort_Permutation).
  split.
  - intros [Hfew|(r10 & Hr10 & Hgt)].
    { rewrite take_ge by lia. done. }
    rewrite <-(take_drop 10 sorted) in Hin, Hsorted.
    apply elem_of_app in Hin as [Hin|Hin]; [done|].
    apply list_elem_of_lookup_2 in Hr10.
    destruct (StronglySorted_app_1_elem_of _ _ _ _ _ Hsorted Hr10 Hin)
      as (f & g & Hf & Hg & Hle).
    rewrite Hf, Hg in Hgt. apply num_gtb_not_geb in Hgt.
    rewrite num_geb_float in Hgt. congruence.
  - intros (i & Hi & Hlt)%elem_of_take.
    destruct (decide (length processed < 10)%nat) as [|Hmany]; [by left|right].
    destruct (lookup_lt_is_Some_2 sorted 9) as [r10 Hr10]; [lia|].
    exists r10. split; [by rewrite lookup_take_lt by lia|].
    apply pnl_ge_geb. destruct (decide (i = 9%nat)) as [->|Hne].
    + assert (r = r10) as <- by congruence.
      apply pnl_ge_refl. rewrite Forall_forall in Hfl. apply Hfl.
      by rewrite <-(list_sort_Permutation pnl true).
    + eapply (StronglySorted_lookup_lt _ _ i 9); eauto with lia.
Qed.

Lemma ranked_by_threshold_witness :
  Forall (pnl_not_nan "day") two_traders ∧
  ∃ processed out r,
    process_traders_loop two_traders "day" = Ok processed ∧
    process_traders (PList two_traders) "day" 10 = Ok out ∧
    sample_trader "0xB" "-100" "300" ∈ two_traders ∧
    ranked_entry (sample_trader "0xB" "-100" "300") "day" = Ok (Some r) ∧
    (length processed < 10)%nat ∧ r ∈ out.
Proof.
  split; [exact two_traders_not_nan|].
  eexists _, _, _.
  assert (sample_trader "0xB" "-100" "300" ∈ two_traders) as Hin
    by (apply list_elem_of_further, list_elem_of_here).
  split; [vm_compute; reflexivity|]. split; [vm_compute; reflexivity|].
  split; [exact Hin|]. split; [vm_compute; reflexivity|].
  split; [simpl; lia|].
  refine (proj1 (ranked_by_threshold two_traders "day" _ _
                   (sample_trader "0xB" "-100" "300") _
                   two_traders_not_nan _ _ Hin _) (or_introl _));
    [vm_compute; reflexivity..|simpl; lia].
Defined.

(** C7 as stated fails: with ten qualifying traders the one ranked 10th
    is in the list although the list has no room to spare and its pnl
    does not exceed the pnl of the 10th entry, which is its own. *)
Lemma tenth_trader_ranked_at_threshold :
  ∃ processed out r,
    process_traders_loop ten_traders "day" = Ok processed ∧
    process_traders (PList ten_traders) "day" 10 = Ok out ∧
    sample_trader "0x1" "1" "0" ∈ ten_traders ∧
    ranked_entry (sample_trader "0x1" "1" "0") "day" = Ok (Some r) ∧
    r ∈ out ∧
    ¬ ((length processed < 10)%nat ∨
       ∃ r10, out !! 9%nat = Some r10 ∧ num_gtb (pnl r) (pnl r10) = true).
Proof.
  eexists _, _, _.
  split; [vm_compute; reflexivity|]. split; [vm_compute; reflexivity|].
  split; [unfold ten_traders; set_solver|].
  split; [vm_compute; reflexivity|].
  split.
  - do 9 apply list_elem_of_further. apply list_elem_of_here.
  - intros [Hfew|(r10 & Hr10 & Hgt)].
    + simpl in Hfew. lia.
    + injection Hr10 as <-. vm_compute in Hgt. done.
Qed.

(** ** The model of [list.sort] against any other stable sort *)

Lemma same_pnl_refl r f : pnl r = NFloat f → float_is_nan f = false → same_pnl f r.
Proof.
  intros Hf Hnan. unfold same_pnl, num_eqb. rewrite Hf. simpl.
  destruct (SFcompare_is_Some f f Hnan Hnan) as [c Hc].
  pose proof (SFcompare_antisym _ _ _ Hc) as Hc'. rewrite Hc in Hc'.
  rewrite Hc. by destruct c.
Qed.

Lemma same_pnl_sym a b f g :
  pnl a = NFloat f → pnl b = NFloat g → same_pnl g a → same_pnl f b.
Proof.
  unfold same_pnl, num_eqb. intros -> ->. simpl.
  destruct (SFcompare f g) as [[]|] eqn:E; try done.
  by rewrite (SFcompare_antisym _ _ _ E).
Qed.

Lemma pnl_ge_antisym a b f :
  pnl_ge a b → pnl_ge b a → same_pnl f a → same_pnl f b.
Proof.
  intros (g & h & Ha & Hb & Hhg) (h' & g' & Hb' & Ha' & Hgh).
  rewrite Ha in Ha'. injection Ha' as <-. rewrite Hb in Hb'. injection Hb' as <-.
  unfold same_pnl, num_eqb. rewrite Ha, Hb. simpl.
  destruct (SFcompare g f) as [[]|] eqn:Hgf; try done. intros _.
  assert (SFcompare h g = Some Eq) as Heq.
  { unfold SFleb in *. destruct (SFcompare h g) as [[]|] eqn:E; try done.
    all: by rewrite (SFcompare_antisym _ _ _ E) in Hgh. }
  by rewrite (SFcompare_Eq_trans _ _ _ Heq Hgf).
Qed.

(** Two descending arrangements with the same order of ties are equal. *)
Lemma descending_stable_unique l1 l2 :
  Forall float_pnl l1 → Forall float_pnl l2 →
  StronglySorted pnl_ge l1 → StronglySorted pnl_ge l2 →
  (∀ f, filter (same_pnl f) l1 = filter (same_pnl f) l2) →
  l1 = l2.
Proof.
  revert l2. induction l1 as [|x t1 IH]; intros [|y t2] Hf1 Hf2 Hs1 Hs2 Hfilter.
  - done.
  - apply Forall_cons in Hf2 as [(g & Hg & Hnan) _].
    specialize (Hfilter g). rewrite filter_cons_True in Hfilter; [done|].
    by apply same_pnl_refl.
  - apply Forall_cons in Hf1 as [(f & Hf & Hnan) _].
    specialize (Hfilter f). rewrite filter_cons_True in Hfilter; [done|].
    by apply same_pnl_refl.
  - apply Forall_cons in Hf1 as [(f & Hf & Hfnan) Hf1].
    apply Forall_cons in Hf2 as [(g & Hg & Hgnan) Hf2].
    apply StronglySorted_cons in Hs1 as [Hx Hs1].
    apply StronglySorted_cons in Hs2 as [Hy Hs2].
    pose proof (same_pnl_refl _ _ Hf Hfnan) as Hxx.
    pose proof (same_pnl_refl _ _ Hg Hgnan) as Hyy.
    assert (same_pnl f y) as Hfy.
    { destruct (decide (same_pnl f y)) as [|Hn]; [done|]. exfalso.
      assert (¬ same_pnl g x) as Hgx by eauto using same_pnl_sym.
      pose proof (Hfilter f) as Hff. pose proof (Hfilter g) as Hgg.
      rewrite filter_cons_True, (filter_cons_False _ y) in Hff by done.
      rewrite (filter_cons_False _ x), filter_cons_True in Hgg by done.
      assert (x ∈ t2) as Hxt2.
      { eapply (list_elem_of_filter (same_pnl f)). rewrite <-Hff. left. }
      assert (y ∈ t1) as Hyt1.
      { eapply (list_elem_of_filter (same_pnl g)). rewrite Hgg. left. }
      rewrite Forall_forall in Hx, Hy.
      apply Hn, (pnl_ge_antisym x y); auto. }
    pose proof (Hfilter f) as Hff.
    rewrite !filter_cons_True in Hff by done. injection Hff as <- _.
    f_equal. apply IH; try done.
    intros h. specialize (Hfilter h). rewrite !filter_cons in Hfilter.
    destruct (decide (same_pnl h x)); by simplify_eq.
Qed.

Lemma Sorted_of_lookup_adjacent {A} (R : relation A) l :
  (∀ i a b, l !! i = Some a → l !! S i = Some b → R a b) → Sorted R l.
Proof.
  induction l as [|x l IH]; intros Hadj; constructor.
  - apply IH. intros i a b. apply (Hadj (S i)).
  - destruct l as [|y l]; constructor. by apply (Hadj 0%nat).
Qed.

(** Whatever sort Python runs: when no pnl is NaN, a descending
    arrangement of the entries that keeps ties in the order of the input
    is the list the model gives. *)
Lemma list_sort_reverse_unique processed l :
  Forall float_pnl processed →
  l ≡ₚ processed →
  descending_by_pnl l →
  (∀ f, filter (same_pnl f) l = filter (same_pnl f) processed) →
  l = list_sort pnl true processed.
Proof.
  intros Hfl Hperm Hdesc Hties.
  assert (Forall float_pnl l) as Hfl' by by rewrite Hperm.
  apply descending_stable_unique.
  - done.
  - by rewrite list_sort_Permutation.
  - apply Sorted_StronglySorted; [apply _|].
    apply (Sorted_Forall_impl (λ a b, num_geb (pnl a) (pnl b) = true) _ float_pnl);
      [|done|by apply Sorted_of_lookup_adjacent].
    intros a b (f & Hf & _) (g & Hg & _) Hge. exists f, g.
    rewrite Hf, Hg, num_geb_float in Hge. done.
  - by apply list_sort_reverse_StronglySorted.
  - intros f. by rewrite list_sort_reverse_stable.
Qed.

(** * Further properties of the script *)

(** ** [fetch_leaderboard] *)

(** X1.  When the reply has no error status and its body is an object
    with [leaderboardRows], [fetch_leaderboard] returns the value found
    there unchanged if it is a list, a [str] or a [dict]; any other value
    ([null], a number, a [bool]) makes [len] raise and the empty list is
    returned. *)
Theorem fetch_leaderboard_rows w status fields rows :
  leaderboard_reply w = Reply status (Some (PDict fields)) →
  ¬ (400 ≤ status < 600) →
  dict_lookup "leaderboardRows" fields = Some rows →
  fetch_leaderboard w = if has_len rows then rows else PList [].
Proof.
  intros Hreply Hst Hrows. unfold fetch_leaderboard. rewrite Hreply. simpl.
  unfold raise_for_status.
  destruct (Z.leb_spec 400 status), (Z.ltb_spec status 600); try lia;
    simpl; rewrite Hrows; by destruct rows.
Qed.

Lemma fetch_leaderboard_rows_witness :
  fetch_leaderboard (world_of_rows (PList two_traders)) = PList two_traders ∧
  fetch_leaderboard (world_of_rows PNone) = PList [].
Proof.
  split.
  - apply (fetch_leaderboard_rows (world_of_rows (PList two_traders)) 200
             [("leaderboardRows", PList two_traders)] (PList two_traders));
      [reflexivity|lia|reflexivity].
  - apply (fetch_leaderboard_rows (world_of_rows PNone) 200
             [("leaderboardRows", PNone)] PNone); [reflexivity|lia|reflexivity].
Defined.

(** X2.  Whatever the reply, [fetch_leaderboard] returns a list, a [str]
    or a [dict]: the loop of [process_traders] over its result never fails
    for want of something to iterate. *)
Theorem fetch_leaderboard_has_len w :
  has_len (fetch_leaderboard w) = true ∧ returns (py_iter (fetch_leaderboard w)).
Proof.
  assert (has_len (fetch_leaderboard w) = true) as H.
  { unfold fetch_leaderboard.
    destruct (response_json (leaderboard_reply w)) as [data|]; simpl; [|done].
    destruct (py_get data "leaderboardRows" (PList [])) as [traders|]; simpl; [|done].
    by destruct traders. }
  split; [done|]. destruct (fetch_leaderboard w); try done; by eexists.
Qed.

(** ** [process_traders] *)

Lemma process_traders_loop_returns ts period :
  returns (process_traders_loop ts period) ↔
  Forall (λ t, returns (ranked_entry t period)) ts.
Proof.
  induction ts as [|t ts IH].
  { split; [constructor|]. intros _. by eexists. }
  rewrite process_traders_loop_cons, Forall_cons, <-IH. unfold returns. split.
  - intros [out H]. inv_bind H. eauto.
  - intros [[e ->] [processed ->]]. simpl. eauto.
Qed.

Lemma process_traders_loop_first_failure l1 t l2 period e :
  Forall (λ t, returns (ranked_entry t period)) l1 →
  ranked_entry t period = Raise e →
  process_traders_loop (l1 ++ t :: l2) period = Raise e.
Proof.
  intros Hl1 Ht. induction Hl1 as [|t' l1 [e' He'] _ IH].
  - simpl app. by rewrite process_traders_loop_cons, Ht.
  - rewrite <-app_comm_cons, process_traders_loop_cons, He', IH. done.
Qed.

(** X3.  [process_traders] returns a list exactly when the loop can build
    the entry of every trader of the input, skipped ones included: one
    record that cannot be processed makes the whole ranking raise,
    whatever the limit. *)
Theorem process_traders_returns_iff ts period n :
  returns (process_traders (PList ts) period n) ↔
  Forall (λ t, returns (ranked_entry t period)) ts.
Proof.
  rewrite <-process_traders_loop_returns. unfold returns, process_traders. simpl.
  split.
  - intros [out H]. inv_bind H. eauto.
  - intros [processed ->]. simpl. eauto.
Qed.

(** X4.  The exception [process_traders] raises is the one of the first
    trader in input order whose entry cannot be built; the traders after
    it are not looked at. *)
Theorem process_traders_first_failure l1 t l2 period n e :
  Forall (λ t, returns (ranked_entry t period)) l1 →
  ranked_entry t period = Raise e →
  process_traders (PList (l1 ++ t :: l2)) period n = Raise e.
Proof.
  intros Hl1 Ht. unfold process_traders. simpl.
  by rewrite (process_traders_loop_first_failure _ _ _ _ _ Hl1 Ht).
Qed.

Lemma process_traders_first_failure_witness :
  Forall (λ t, returns (ranked_entry t "day")) two_traders ∧
  ranked_entry broken_trader "day" = Raise ValueError ∧
  process_traders (PList (two_traders ++ [broken_trader; PNone])) "day" 10 =
    Raise ValueError.
Proof.
  assert (Forall (λ t, returns (ranked_entry t "day")) two_traders) as Hok.
  { repeat constructor; eexists; vm_compute; reflexivity. }
  split; [exact Hok|]. split; [vm_compute; reflexivity|].
  apply (process_traders_first_failure two_traders broken_trader [PNone] "day" 10
           ValueError Hok).
  vm_compute. reflexivity.
Defined.

(** X5.  The account value is coerced only for a trader that qualifies.
    When [get_pnl_data] gives a pnl equal to zero the trader is skipped
    without its account value being read; otherwise the entry is built
    exactly when the account value (0 when absent) is coercible to a
    float. *)
Theorem ranked_entry_returns_iff trader period d :
  get_pnl_data trader period = Ok d →
  (num_eqb (pd_pnl d) (NInt 0) = true → ranked_entry trader period = Ok None) ∧
  (num_eqb (pd_pnl d) (NInt 0) = false →
   returns (ranked_entry trader period) ↔
   ∃ fields, trader = PDict fields ∧
             coercible (default (PInt 0) (dict_lookup "accountValue" fields))).
Proof.
  intros Hd. unfold ranked_entry. rewrite Hd. simpl. split; [by intros ->|].
  intros ->. unfold get_pnl_data in Hd.
  destruct trader as [| | | | | |fields]; try done. simpl.
  unfold coercible, returns. split.
  - intros [r H]. inv_bind H. eauto.
  - intros (fields' & [= <-] & f & ->). simpl. eauto.
Qed.

Lemma ranked_entry_returns_iff_witness :
  get_pnl_data idle_trader "day" = Ok zero_figures ∧
  ranked_entry idle_trader "day" = Ok None ∧
  (∃ d, get_pnl_data broken_trader "day" = Ok d ∧
        num_eqb (pd_pnl d) (NInt 0) = false) ∧
  ¬ returns (ranked_entry broken_trader "day").
Proof.
  split; [reflexivity|]. split.
  { apply (proj1 (ranked_entry_returns_iff idle_trader "day" zero_figures eq_refl)).
    reflexivity. }
  split; [eexists; split; vm_compute; reflexivity|].
  intros Hret.
  eapply (proj2 (ranked_entry_returns_iff broken_trader "day" _
                   ltac:(vm_compute; reflexivity))) in Hret as (fields & [= <-] & f & Hf);
    [|vm_compute; reflexivity].
  vm_compute in Hf. discriminate Hf.
Defined.

Lemma process_traders_loop_length ts period processed :
  process_traders_loop ts period = Ok processed → (length processed ≤ length ts)%nat.
Proof.
  revert processed. induction ts as [|t ts IH]; intros processed.
  { by intros [= <-]. }
  rewrite process_traders_loop_cons. intros H. inv_bind H. subst processed.
  specialize (IH _ Ha0). rewrite length_app. destruct a; simpl; lia.
Qed.

(** X6.  The ranked list has as many entries as the limit allows: the
    smaller of the limit and the number of qualifying traders when the
    limit is not negative; a negative limit [-k] drops the [k] lowest
    entries instead.  No more traders qualify than the input holds. *)
Theorem process_traders_length ts period n processed out :
  process_traders_loop ts period = Ok processed →
  process_traders (PList ts) period n = Ok out →
  length out =
    (if 0 <=? n then (Z.to_nat n `min` length processed)%nat
     else (length processed - Z.to_nat (- n))%nat) ∧
  (length processed ≤ length ts)%nat.
Proof.
  intros Hloop (processed' & Hloop' & ->)%process_traders_Ok.
  assert (processed' = processed) as -> by congruence.
  split; [|by eapply process_traders_loop_length].
  assert (length (list_sort pnl true processed) = length processed) as Hlen
    by by rewrite list_sort_Permutation.
  unfold slice_to. destruct (0 <=? n); rewrite length_take, Hlen; lia.
Qed.

Lemma process_traders_length_witness :
  ∃ processed out,
    process_traders_loop ten_traders "day" = Ok processed ∧
    process_traders (PList ten_traders) "day" (-3) = Ok out ∧
    length processed = 10%nat ∧ length out = (length processed - 3)%nat.
Proof.
  eexists _, _. split; [vm_compute; reflexivity|].
  split; [vm_compute; reflexivity|]. split; [reflexivity|].
  refine (proj1 (process_traders_length ten_traders "day" (-3) _ _ _ _));
    vm_compute; reflexivity.
Defined.

Lemma slice_to_split {A} n (l : list A) : ∃ rest, l = slice_to n l ++ rest.
Proof. destruct (slice_to_prefix n l) as [rest H]. eauto. Qed.

(** X7.  The ranked list is the top of the ranking: the qualifying
    entries are those of the ranked list together with the entries left
    out, and when no trader's pnl for the window is NaN every entry of the
    ranked list has a pnl greater than or equal to the pnl of every entry
    left out. *)
Theorem process_traders_top ts period n processed out :
  Forall (pnl_not_nan period) ts →
  process_traders_loop ts period = Ok processed →
  process_traders (PList ts) period n = Ok out →
  ∃ rest, out ++ rest ≡ₚ processed ∧
          ∀ r r', r ∈ out → r' ∈ rest → num_geb (pnl r) (pnl r') = true.
Proof.
  intros Hnan Hloop (processed' & Hloop' & ->)%process_traders_Ok.
  assert (processed' = processed) as -> by congruence.
  pose proof (process_traders_loop_float_pnl _ _ _ Hnan Hloop) as Hfl.
  pose proof (list_sort_reverse_StronglySorted _ Hfl) as Hsorted.
  destruct (slice_to_split n (list_sort pnl true processed)) as [rest Hrest].
  exists rest. split.
  - by rewrite <-Hrest, list_sort_Permutation.
  - intros r r' Hr Hr'. apply pnl_ge_geb. rewrite Hrest in Hsorted.
    by eapply StronglySorted_app_1_elem_of.
Qed.

Lemma process_traders_top_witness :
  Forall (pnl_not_nan "day") two_traders ∧
  ∃ processed out rest,
    process_traders_loop two_traders "day" = Ok processed ∧
    process_traders (PList two_traders) "day" 1 = Ok out ∧
    address <$> out = [PStr "0xA"] ∧
    out ++ rest ≡ₚ processed ∧
    ∀ r r', r ∈ out → r' ∈ rest → num_geb (pnl r) (pnl r') = true.
Proof.
  split; [exact two_traders_not_nan|].
  destruct (process_traders_top two_traders "day" 1 _ _ two_traders_not_nan
              ltac:(vm_compute; reflexivity) ltac:(vm_compute; reflexivity))
    as (rest & Hperm & Htop).
  eexists _, _, rest. split; [vm_compute; reflexivity|].
  split; [vm_compute; reflexivity|]. split; [reflexivity|]. split; [exact Hperm|exact Htop].
Defined.

(** X8.  When the limit is at least the number of qualifying traders the
    ranked list holds every qualifying entry exactly as often as the loop
    built it: nothing is dropped and nothing is merged, two traders with
    the same address are both listed.  This holds whatever the pnl
    values, NaN included. *)
Theorem process_traders_keeps_all ts period n processed out :
  process_traders_loop ts period = Ok processed →
  process_traders (PList ts) period n = Ok out →
  (Z.of_nat (length processed) ≤ n) →
  out ≡ₚ processed.
Proof.
  intros Hloop (processed' & Hloop' & ->)%process_traders_Ok Hn.
  assert (processed' = processed) as -> by congruence.
  unfold slice_to. destruct (Z.leb_spec 0 n); [|lia].
  rewrite take_ge; [apply list_sort_Permutation|].
  rewrite list_sort_Permutation. lia.
Qed.

Lemma process_traders_keeps_all_witness :
  ∃ processed out,
    process_traders_loop (nan_traders ++ nan_traders) "day" = Ok processed ∧
    process_traders (PList (nan_traders ++ nan_traders)) "day" 10 = Ok out ∧
    length out = 4%nat ∧ out ≡ₚ processed.
Proof.
  eexists _, _. split; [vm_compute; reflexivity|].
  split; [vm_compute; reflexivity|]. split; [reflexivity|].
  refine (process_traders_keeps_all (nan_traders ++ nan_traders) "day" 10 _ _ _ _ _);
    [vm_compute; reflexivity..|simpl; lia].
Defined.

(** X9.  When no trader's pnl for the window is NaN the ranked list does
    not depend on how the sort works: whatever arrangement of the
    qualifying entries is descending by pnl and keeps entries of equal
    pnl in input order, [process_traders] returns its first entries. *)
Theorem process_traders_order_unique ts period n processed out l :
  Forall (pnl_not_nan period) ts →
  process_traders_loop ts period = Ok processed →
  process_traders (PList ts) period n = Ok out →
  l ≡ₚ processed →
  descending_by_pnl l →
  (∀ f, filter (same_pnl f) l = filter (same_pnl f) processed) →
  out = slice_to n l.
Proof.
  intros Hnan Hloop (processed' & Hloop' & ->)%process_traders_Ok Hperm Hdesc Hties.
  assert (processed' = processed) as -> by congruence.
  pose proof (process_traders_loop_float_pnl _ _ _ Hnan Hloop) as Hfl.
  by rewrite (list_sort_reverse_unique processed l).
Qed.

Lemma process_traders_order_unique_witness :
  Forall (pnl_not_nan "day") two_traders ∧
  ∃ processed out,
    process_traders_loop two_traders "day" = Ok processed ∧
    process_traders (PList two_traders) "day" 1 = Ok out ∧
    descending_by_pnl processed ∧
    out = slice_to 1 processed.
Proof.
  split; [exact two_traders_not_nan|].
  eexists _, _. split; [vm_compute; reflexivity|].
  split; [vm_compute; reflexivity|].
  match goal with |- descending_by_pnl ?l ∧ _ =>
    assert (descending_by_pnl l) as Hdesc
  end.
  { intros [|[|i]] a b; simpl; try done. by intros [= <-] [= <-]. }
  split; [exact Hdesc|].
  refine (process_traders_order_unique two_traders "day" 1 _ _ _
            two_traders_not_nan _ _ _ Hdesc _);
    [vm_compute; reflexivity..|reflexivity|reflexivity].
Defined.

(** ** [main] *)

Lemma remove_dups_cons_inv {A} `{EqDecision A} (x : A) (l : list A) :
  ∃ y ys, remove_dups (x :: l) = y :: ys.
Proof.
  destruct (remove_dups (x :: l)) as [|y ys] eqn:E; [|eauto].
  assert (x ∈ remove_dups (x :: l)) as Hx by (apply elem_of_remove_dups; left).
  rewrite E in Hx. by apply not_elem_of_nil in Hx.
Qed.

Lemma text_or_object_iter rows :
  text_or_object rows → ∃ s rest, py_iter rows = Ok (PStr s :: rest).
Proof.
  destruct rows as [| | | |s| |d]; try done; cbn [text_or_object py_iter].
  - destruct s as [|c s]; [done|]. intros _. by eexists _, _.
  - destruct d as [|[k v] d]; [done|]. intros _. rewrite fmap_cons.
    destruct (remove_dups_cons_inv k (fst <$> d)) as (y & ys & E).
    cbn [fst]. rewrite E. by eexists _, _.
Qed.

(** X10.  When [leaderboardRows] is a non-empty [str] or a non-empty
    [dict], [fetch_leaderboard] hands it on (it has a length) and the loop
    of [process_traders] runs over characters or keys: the first of them
    has no [get], [main] ends with [AttributeError] and the file is left
    as it was. *)
Theorem main_rows_not_a_list w disk :
  text_or_object (fetch_leaderboard w) →
  main w disk = (Raise AttributeError, disk).
Proof.
  intros Hrows. destruct (text_or_object_iter _ Hrows) as (s & rest & Hiter).
  assert (py_truthy (fetch_leaderboard w) = true) as Htruthy.
  { destruct (fetch_leaderboard w) as [| | | |[|]| |[|]]; done. }
  unfold main, main_output, process_traders. by rewrite Htruthy, Hiter.
Qed.

Lemma main_rows_not_a_list_witness :
  fetch_leaderboard (world_of_rows (PStr "maintenance")) = PStr "maintenance" ∧
  main (world_of_rows (PStr "maintenance")) (Some old_snapshot) =
    (Raise AttributeError, Some old_snapshot).
Proof.
  split; [reflexivity|].
  apply (main_rows_not_a_list (world_of_rows (PStr "maintenance"))).
  simpl. discriminate.
Defined.

Lemma process_traders_Ok_iter traders period n out :
  process_traders traders period n = Ok out ↔
  ∃ ts processed, py_iter traders = Ok ts ∧
                  process_traders_loop ts period = Ok processed ∧
                  out = slice_to n (list_sort pnl true processed).
Proof.
  unfold process_traders. split.
  - intros H. inv_bind H. subst out. eauto.
  - intros (ts & processed & -> & Hloop & ->). simpl. by rewrite Hloop.
Qed.

Lemma process_traders_top10_length traders period out :
  process_traders traders period 10 = Ok out → (length out ≤ 10)%nat.
Proof.
  intros (ts & processed & _ & _ & ->)%process_traders_Ok_iter.
  change 10 with (Z.of_nat 10). rewrite slice_to_take, length_take. lia.
Qed.

Lemma attach_with_enriched w ts all_addresses t :
  collect_addresses ts = Ok all_addresses → t ∈ ts →
  enriched w (attach_with (fetch_positions w) t).
Proof.
  intros HS Ht. destruct (collect_addresses_elem_of _ _ _ HS Ht) as (a & Ha & _).
  exists a. unfold attach_with. simpl. by rewrite Ha.
Qed.

Lemma main_output_shape w output :
  main_output w = Ok (Some output) →
  (length (daily output) ≤ 10)%nat ∧ (length (weekly output) ≤ 10)%nat ∧
  Forall (enriched w) (daily output ++ weekly output) ∧
  lastUpdated output = utcnow_isoformat w +:+ "Z".
Proof.
  intros (dt & wt & S & _ & Hd & Hw & HS & ->)%main_output_Some. simpl.
  rewrite !length_fmap. repeat split; eauto using process_traders_top10_length.
  rewrite <-fmap_app. apply Forall_fmap, Forall_forall. intros t Ht.
  by eapply attach_with_enriched.
Qed.

(** X11.  A run of [main] changes [data.json] only when it ends normally
    after the dump: an early return or an exception leaves the file as it
    was.  The snapshot written holds two rankings of at most 10 entries;
    every entry has a string as address and carries the positions
    [fetch_positions] gives for that address, and the time stamp is the
    clock's text followed by ["Z"]. *)
Theorem main_writes_snapshot w disk :
  snd (main w disk) = disk ∨
  ∃ output,
    main w disk = (Ok (), Some output) ∧
    (length (daily output) ≤ 10)%nat ∧ (length (weekly output) ≤ 10)%nat ∧
    Forall (enriched w) (daily output ++ weekly output) ∧
    lastUpdated output = utcnow_isoformat w +:+ "Z".
Proof.
  unfold main. destruct (main_output w) as [[output|]|e] eqn:Hout; [|by left..].
  right. exists output. split; [done|]. by apply main_output_shape.
Qed.

(** X12.  In the snapshot [main] builds, two entries with the same address
    carry the same list of positions, whether they stand in the same
    ranking or one in the daily and one in the weekly ranking. *)
Theorem main_same_address_same_positions w output t1 t2 :
  main_output w = Ok (Some output) →
  t1 ∈ daily output ++ weekly output →
  t2 ∈ daily output ++ weekly output →
  address t1 = address t2 →
  positions t1 = positions t2.
Proof.
  intros Hout Ht1 Ht2 Haddr.
  destruct (main_output_shape _ _ Hout) as (_ & _ & Hall & _).
  rewrite Forall_forall in Hall.
  destruct (Hall t1 Ht1) as (a1 & Ha1 & ->), (Hall t2 Ht2) as (a2 & Ha2 & ->).
  congruence.
Qed.

Lemma main_same_address_same_positions_witness :
  ∃ output t1 t2,
    main_output sample_world = Ok (Some output) ∧
    daily output !! 1%nat = Some t1 ∧ weekly output !! 0%nat = Some t2 ∧
    address t1 = PStr "0xB" ∧ address t2 = PStr "0xB" ∧
    positions t1 = positions t2.
Proof.
  eexists _, _, _. split; [vm_compute; reflexivity|].
  split; [reflexivity|]. split; [reflexivity|].
  split; [reflexivity|]. split; [reflexivity|].
  refine (main_same_address_same_positions sample_world _ _ _ _ _ _ _).
  - vm_compute. reflexivity.
  - apply elem_of_app. left. apply list_elem_of_further, list_elem_of_here.
  - apply elem_of_app. right. apply list_elem_of_here.
  - reflexivity.
Defined.

Lemma fetch_leaderboard_ext w w' :
  leaderboard_reply w' = leaderboard_reply w → fetch_leaderboard w' = fetch_leaderboard w.
Proof. unfold fetch_leaderboard. by intros ->. Qed.

Lemma fetch_positions_ext w w' a :
  info_reply w' a = info_reply w a → fetch_positions w' a = fetch_positions w a.
Proof. unfold fetch_positions. by intros ->. Qed.

(** X13.  The snapshot depends on the positions replies only at the
    addresses that are ranked: a run in a world with the same leaderboard
    reply, the same clock and the same replies for the ranked addresses
    ends in the same way and writes the same snapshot, whatever the other
    addresses would be answered. *)
Theorem main_ignores_other_addresses w w' disk output :
  leaderboard_reply w' = leaderboard_reply w →
  utcnow_isoformat w' = utcnow_isoformat w →
  main_output w = Ok (Some output) →
  (∀ t a, t ∈ daily output ++ weekly output → address t = PStr a →
          info_reply w' a = info_reply w a) →
  main w' disk = main w disk.
Proof.
  intros Hboard Hclock Hout Hsame.
  apply fetch_leaderboard_ext in Hboard.
  assert (main_output w' = Ok (Some output)) as Hout'; [|unfold main; by rewrite Hout, Hout'].
  apply main_output_Some in Hout as (dt & wt & S & Ht & Hd & Hw & HS & ->).
  apply main_output_Some. exists dt, wt, S. rewrite Hboard, Hclock.
  repeat split; try done.
  assert (∀ t, t ∈ dt ++ wt →
            attach_with (fetch_positions w') t = attach_with (fetch_positions w) t)
    as Heq.
  { intros t Ht'. unfold attach_with.
    destruct (address t) as [| | | |a| |] eqn:Ha; try done.
    rewrite (fetch_positions_ext w w' a); [done|].
    apply (Hsame (attach_with (fetch_positions w) t)); [|done].
    simpl. rewrite <-fmap_app. by apply list_elem_of_fmap_2. }
  f_equal; apply list_fmap_ext; intros i t Hi%list_elem_of_lookup_2;
    symmetry; apply Heq, elem_of_app; auto.
Qed.

Lemma main_ignores_other_addresses_witness :
  ∃ output,
    main_output sample_world = Ok (Some output) ∧
    main (with_info_reply sample_world "0xZ" (Reply 200 (Some sample_positions))) None =
      main sample_world None.
Proof.
  eexists. split; [vm_compute; reflexivity|].
  refine (main_ignores_other_addresses sample_world _ None _ eq_refl eq_refl _ _).
  - vm_compute. reflexivity.
  - intros t a Ht Ha. simpl.
    repeat (apply elem_of_cons in Ht as [->|Ht]; [by injection Ha as <-|]).
    by apply not_elem_of_nil in Ht.
Defined.




(** ** [fetch_positions] *)

Lemma positions_loop_cons ap aps :
  positions_loop (ap :: aps) =
    e ← position_entry ap;
    ps ← positions_loop aps;
    Ok (option_list e ++ ps).
Proof.
  simpl. unfold position_entry.
  destruct (py_get ap "position" (PDict [])) as [pos|]; simpl; [|done].
  destruct (py_truthy pos); simpl; [|by destruct (positions_loop aps)].
  destruct (py_get pos "szi" (PInt 0)) as [v|]; simpl; [|done].
  destruct (py_float v) as [szi|]; simpl; [|done].
  destruct (szi_nonzero szi); simpl; [|by destruct (positions_loop aps)].
  by destruct (make_position pos szi).
Qed.

Lemma positions_loop_raises aps ap :
  ap ∈ aps → raises (position_entry ap) → raises (positions_loop aps).
Proof.
  intros Hin [e He]. induction aps as [|ap' aps IH]; [by apply not_elem_of_nil in Hin|].
  rewrite positions_loop_cons.
  destruct (position_entry ap') as [e'|e''] eqn:E; [|by eexists].
  apply elem_of_cons in Hin as [->|Hin]; [congruence|].
  destruct (IH Hin) as [e'' ->]. by eexists.
Qed.

(** X15.  [fetch_positions] is all or nothing: when one asset position of
    the response cannot be processed, the positions already built from the
    others are discarded and the empty list is returned. *)
Theorem fetch_positions_all_or_nothing w a data aps ap :
  response_json (info_reply w a) = Ok data →
  asset_positions data = Ok aps →
  ap ∈ aps →
  raises (position_entry ap) →
  fetch_positions w a = [].
Proof.
  intros Hdata Haps Hin Hraise.
  destruct (positions_loop_raises _ _ Hin Hraise) as [e He].
  unfold fetch_positions, extract_positions. rewrite Hdata. simpl.
  unfold asset_positions in Haps.
  destruct (py_get data "assetPositions" (PList [])) as [v|]; simpl in *; [|done].
  rewrite Haps. simpl. by rewrite He.
Qed.

Lemma fetch_positions_all_or_nothing_witness :
  returns (position_entry (asset "BTC" "-2.5")) ∧
  position_entry (asset "ETH" "n/a") = Raise ValueError ∧
  fetch_positions half_broken_world "0xA" = [].
Proof.
  split; [eexists; vm_compute; reflexivity|]. split; [vm_compute; reflexivity|].
  apply (fetch_positions_all_or_nothing half_broken_world "0xA" half_broken_positions
           [asset "BTC" "-2.5"; asset "ETH" "n/a"] (asset "ETH" "n/a"));
    [reflexivity|reflexivity| |eexists; vm_compute; reflexivity].
  apply list_elem_of_further, list_elem_of_here.
Defined.

Lemma positions_loop_skip l1 ap l2 :
  position_entry ap = Ok None →
  positions_loop (l1 ++ ap :: l2) = positions_loop (l1 ++ l2).
Proof.
  intros Hskip. induction l1 as [|ap' l1 IH].
  - simpl app. rewrite positions_loop_cons, Hskip. simpl.
    by destruct (positions_loop l2).
  - rewrite <-!app_comm_cons, !positions_loop_cons. by rewrite IH.
Qed.

(** X16.  An asset position contributes nothing when its position object
    is absent or falsy ([null], [{}], [[]], [""], [0], [false]), or when
    its size is zero: the loop of [fetch_positions] gives the same result,
    error or list, as on the response without it. *)
Theorem positions_loop_ignores fields l1 l2 :
  let pos := default (PDict []) (dict_lookup "position" fields) in
  py_truthy pos = false ∨
    (∃ pfields szi, pos = PDict pfields ∧
       py_float (default (PInt 0) (dict_lookup "szi" pfields)) = Ok szi ∧
       szi_nonzero szi = false) →
  positions_loop (l1 ++ PDict fields :: l2) = positions_loop (l1 ++ l2).
Proof.
  intros pos Hpos. apply positions_loop_skip. unfold position_entry. simpl.
  fold pos. destruct Hpos as [->|(pfields & szi & Hp & Hszi & Hz)]; [done|].
  rewrite Hp. destruct (py_truthy (PDict pfields)); [|done]. simpl.
  rewrite Hszi. simpl. by rewrite Hz.
Qed.

Lemma positions_loop_ignores_witness :
  positions_loop [asset "BTC" "-2.5"; PDict [("position", PNone)]; asset "SOL" "40"] =
    positions_loop [asset "BTC" "-2.5"; asset "SOL" "40"] ∧
  positions_loop [asset "BTC" "-2.5"; flat_leverage_asset "-0.0"; asset "SOL" "40"] =
    positions_loop [asset "BTC" "-2.5"; asset "SOL" "40"].
Proof.
  split.
  - apply (positions_loop_ignores [("position", PNone)]
             [asset "BTC" "-2.5"] [asset "SOL" "40"]).
    by left.
  - apply (positions_loop_ignores
             [("position", PDict [("coin", PStr "BTC"); ("szi", PStr "-0.0"); ("leverage", PInt 5)])]
             [asset "BTC" "-2.5"] [asset "SOL" "40"]).
    right. eexists _, _. split; [reflexivity|]. split; vm_compute; reflexivity.
Defined.

(** X17.  The leverage is read only for a position of non-zero size.  A
    position whose size is zero is skipped whatever its leverage is; a
    position of non-zero size gives an entry exactly when its leverage is
    absent or an object, and any other leverage raises [AttributeError]. *)
Theorem position_entry_leverage fields pfields szi :
  dict_lookup "position" fields = Some (PDict pfields) →
  pfields ≠ [] →
  py_float (default (PInt 0) (dict_lookup "szi" pfields)) = Ok szi →
  (szi_nonzero szi = false → position_entry (PDict fields) = Ok None) ∧
  (szi_nonzero szi = true →
   match dict_lookup "leverage" pfields with
   | None | Some (PDict _) => ∃ p, position_entry (PDict fields) = Ok (Some p)
   | Some _ => position_entry (PDict fields) = Raise AttributeError
   end).
Proof.
  intros Hpos Hne Hszi. unfold position_entry. simpl. rewrite Hpos. simpl.
  destruct pfields as [|kv pfields]; [done|]. cbn [py_truthy].
  cbn [mbind result_bind]. rewrite Hszi. cbn [mbind result_bind].
  split; intros ->; [done|].
  unfold make_position. cbn [py_get mbind result_bind].
  destruct (dict_lookup "leverage" (kv :: pfields)) as [[| | | | | |lev]|];
    cbn [default py_get mbind result_bind]; eauto.
Qed.

Lemma position_entry_leverage_witness :
  position_entry (flat_leverage_asset "0") = Ok None ∧
  position_entry (flat_leverage_asset "3") = Raise AttributeError.
Proof.
  pose proof (position_entry_leverage
                [("position", PDict [("coin", PStr "BTC"); ("szi", PStr "0"); ("leverage", PInt 5)])]
                _ (S754_zero false) eq_refl ltac:(discriminate)
                ltac:(vm_compute; reflexivity)) as [Hzero _].
  pose proof (position_entry_leverage
                [("position", PDict [("coin", PStr "BTC"); ("szi", PStr "3"); ("leverage", PInt 5)])]
                _ _ eq_refl ltac:(discriminate)
                ltac:(vm_compute; reflexivity)) as [_ Hthree].
  split; [by apply Hzero|]. by apply Hthree.
Defined.

(** ** [get_pnl_data] *)

Lemma get_pnl_data_loop_skip good rest period :
  Forall (other_key period) good →
  get_pnl_data_loop (good ++ rest) period = get_pnl_data_loop rest period.
Proof.
  induction 1 as [|perf good (k & Hk & Hne) _ IH]; [done|].
  simpl. rewrite Hk. simpl. by rewrite Hne.
Qed.

(** X18.  An entry whose first element is not the window key is passed
    over whatever else it holds: a one-element list, a list with a
    malformed second element or even a [str] does not raise.  The result
    is the one computed from the entries after it. *)
Theorem get_pnl_data_skips_other_keys fields good rest period :
  dict_lookup "windowPerformances" fields = Some (PList (good ++ rest)) →
  Forall (other_key period) good →
  get_pnl_data (PDict fields) period = get_pnl_data_loop rest period.
Proof.
  intros Hwp Hgood. unfold get_pnl_data. simpl. rewrite Hwp. simpl.
  by apply get_pnl_data_loop_skip.
Qed.

Lemma get_pnl_data_skips_other_keys_witness :
  Forall (other_key "week") [key_only "day"; PStr "month"; PList [PStr "year"; PNone]] ∧
  get_pnl_data
    (trader_with [key_only "day"; PStr "month"; PList [PStr "year"; PNone];
                  window "week" "3" "0.2" "20"]) "week" =
    get_pnl_data_loop [window "week" "3" "0.2" "20"] "week".
Proof.
  assert (Forall (other_key "week")
            [key_only "day"; PStr "month"; PList [PStr "year"; PNone]]) as Hgood.
  { repeat constructor; eexists; split; reflexivity. }
  split; [exact Hgood|].
  by apply (get_pnl_data_skips_other_keys (fields_with _)
              [key_only "day"; PStr "month"; PList [PStr "year"; PNone]]
              [window "week" "3" "0.2" "20"] "week").
Defined.

(** X19.  An entry without a first element is not passed over: an empty
    list or an empty [str] raises [IndexError], an object [KeyError],
    [null] or a number [TypeError], and this ends [get_pnl_data] even when
    a later entry has the key.  An entry with the key and nothing after
    it raises [IndexError]. *)
Theorem get_pnl_data_bad_entry fields good bad rest period e :
  dict_lookup "windowPerformances" fields = Some (PList (good ++ bad :: rest)) →
  Forall (other_key period) good →
  py_index bad 0 = Raise e ∨
    (∃ k, py_index bad 0 = Ok k ∧ py_eq_str k period = true ∧ py_index bad 1 = Raise e) →
  get_pnl_data (PDict fields) period = Raise e.
Proof.
  intros Hwp Hgood Hbad. unfold get_pnl_data. simpl. rewrite Hwp. simpl.
  rewrite (get_pnl_data_loop_skip _ _ _ Hgood). simpl.
  destruct Hbad as [->|(k & -> & Hk & Hone)]; [done|]. simpl. rewrite Hk.
  unfold window_figure. by rewrite Hone.
Qed.

Lemma get_pnl_data_bad_entry_witness :
  get_pnl_data (trader_with [key_only "day"; PList []; window "week" "3" "0.2" "20"])
    "week" = Raise IndexError ∧
  get_pnl_data (trader_with [key_only "day"; window "week" "3" "0.2" "20"])
    "day" = Raise IndexError.
Proof.
  split.
  - apply (get_pnl_data_bad_entry (fields_with _) [key_only "day"] (PList [])
             [window "week" "3" "0.2" "20"] "week" IndexError eq_refl).
    + repeat constructor. eexists. split; reflexivity.
    + by left.
  - apply (get_pnl_data_bad_entry (fields_with _) [] (key_only "day")
             [window "week" "3" "0.2" "20"] "day" IndexError eq_refl).
    + constructor.
    + right. eexists. repeat split; reflexivity.
Defined.

(** X20.  An absent [windowPerformances] is defaulted, a present one is
    not checked: when the field holds [null], a [bool] or a number the
    loop has nothing to iterate and [get_pnl_data] raises [TypeError]; a
    trader that is not an object raises [AttributeError]. *)
Theorem get_pnl_data_not_iterable trader period :
  match trader with
  | PDict fields =>
      match dict_lookup "windowPerformances" fields with
      | Some (PNone | PBool _ | PInt _ | PFloat _) =>
          get_pnl_data trader period = Raise TypeError
      | None => get_pnl_data trader period = Ok zero_figures
      | _ => True
      end
  | _ => get_pnl_data trader period = Raise AttributeError
  end.
Proof.
  destruct trader as [| | | | | |fields]; try done.
  unfold get_pnl_data. simpl.
  by destruct (dict_lookup "windowPerformances" fields) as [[]|].
Qed.

(** ** How a run of [main] ends *)

(** X21.  [main] returns early exactly when what [fetch_leaderboard]
    returns is falsy: the empty list, but also an empty [str] or an empty
    [dict] found under [leaderboardRows]. *)
Theorem main_returns_early_iff w :
  main_output w = Ok None ↔ py_truthy (fetch_leaderboard w) = false.
Proof.
  unfold main_output. destruct (py_truthy (fetch_leaderboard w)); simpl.
  - split; [|done]. intros H.
    repeat match type of H with
    | ?m ≫= _ = _ => destruct m; simpl in H; [|done]
    end.
    done.
  - done.
Qed.


